(** * HyVueGantt: the time-axis unit engine ([useTimeaxisUnits.ts])

    A shallow embedding of [src/composables/useTimeaxisUnits.ts]: label
    capitalisation, the precision/zoom state machine, the time-to-live
    cache, the lower/upper unit partitioner and the minute-step calculator,
    followed by the properties of the specification that were checked against
    them.

    Modelling conventions.
    - A JavaScript string is the list of its UTF-16 code units ([jsstring]).
    - A JavaScript number that only ever holds an integer here (zoom level,
      epoch milliseconds, pixel widths) is a [Z]; the fractional results of
      [diff(_, _, true)] are exact rationals ([Q]) and [Math.ceil] is
      [Qceiling]. Over the range of JavaScript dates the double-precision
      quotient by a unit length never rounds a non-integer to an integer, so
      the ceilings agree.
    - A dayjs value is the record of its civil fields in a zone with a fixed
      offset (no daylight-saving jumps); its instant is [valueOf].
    - The reactive cells ([ref]) of one chart instance are the fields of
      [Instance]; a [while] loop takes a fuel argument and answers [None] when
      the fuel runs out before the loop condition fails.
    - The clock reading [Date.now()] is the argument [now] of the functions
      that read it, constant during one synchronous evaluation. *)

From Stdlib Require Import ZArith NArith List Lia Ascii String QArith Qround.
From Stdlib Require Import DecimalZ DecimalN Sorted.
From stdpp Require Import base option list gmap.

Import ListNotations.
Local Open Scope Z_scope.

(* ================================================================== *)
(** * Part I. The program                                             *)
(* ================================================================== *)

(** ** JavaScript strings and numbers *)

Module Js.

(** A UTF-16 code unit. *)
Definition char := N.
Definition jsstring := list char.

(** A literal of the source (ASCII only) as a [jsstring]. *)
Definition str (s : string) : jsstring :=
  map N_of_ascii (list_ascii_of_string s).

Definition digitChar (d : Z) : char := Z.to_N (48 + d).

Fixpoint uintDigits (u : Decimal.uint) : jsstring :=
  match u with
  | Decimal.Nil => []
  | Decimal.D0 u => digitChar 0 :: uintDigits u
  | Decimal.D1 u => digitChar 1 :: uintDigits u
  | Decimal.D2 u => digitChar 2 :: uintDigits u
  | Decimal.D3 u => digitChar 3 :: uintDigits u
  | Decimal.D4 u => digitChar 4 :: uintDigits u
  | Decimal.D5 u => digitChar 5 :: uintDigits u
  | Decimal.D6 u => digitChar 6 :: uintDigits u
  | Decimal.D7 u => digitChar 7 :: uintDigits u
  | Decimal.D8 u => digitChar 8 :: uintDigits u
  | Decimal.D9 u => digitChar 9 :: uintDigits u
  end.

(** [Number.prototype.toString] / template interpolation of an integer. *)
Definition numberToString (n : Z) : jsstring :=
  match Z.to_int n with
  | Decimal.Pos u => uintDigits u
  | Decimal.Neg u => str "-" ++ uintDigits u
  end.

(** [s.padStart(n, "0")]. *)
Definition padStart0 (n : nat) (s : jsstring) : jsstring :=
  repeat (digitChar 0) (n - length s) ++ s.

(** Reads a maximal prefix of decimal digits. *)
Fixpoint readDigits (s : jsstring) : Decimal.uint * jsstring :=
  match s with
  | [] => (Decimal.Nil, [])
  | c :: s' =>
      let k := (Z.of_N c - 48)%Z in
      if (0 <=? k) && (k <=? 9) then
        let '(u, r) := readDigits s' in
        ((match k with
          | 0 => Decimal.D0 | 1 => Decimal.D1 | 2 => Decimal.D2
          | 3 => Decimal.D3 | 4 => Decimal.D4 | 5 => Decimal.D5
          | 6 => Decimal.D6 | 7 => Decimal.D7 | 8 => Decimal.D8
          | _ => Decimal.D9
          end) u, r)
      else (Decimal.Nil, s)
  end.

(** The number a digit string followed by ["px"] denotes. *)
Definition pxMagnitude (body : jsstring) : option Z :=
  match readDigits body with
  | (Decimal.Nil, _) => None
  | (u, r) =>
      if decide (r = str "px") then Some (Z.of_N (N.of_uint u)) else None
  end.

(** The number of pixels a CSS width of the form ["<integer>px"] denotes. *)
Definition pxValue (s : jsstring) : option Z :=
  match s with
  | [] => None
  | c :: s' =>
      if (c =? 45)%N then Z.opp <$> pxMagnitude s' else pxMagnitude s
  end.

End Js.
Export Js.

(** ** Types ([types/chart.ts]) *)

Inductive TimeUnit := hour | day | date | week | month.

(** [type ExtendedTimeUnit = TimeUnit | "year" | "isoWeek"] *)
Inductive ExtendedTimeUnit :=
  | base (u : TimeUnit)
  | year
  | isoWeek.

Coercion base : TimeUnit >-> ExtendedTimeUnit.

#[global] Instance TimeUnit_eq_dec : EqDecision TimeUnit.
Proof. solve_decision. Defined.

#[global] Instance ExtendedTimeUnit_eq_dec : EqDecision ExtendedTimeUnit.
Proof. solve_decision. Defined.

(** The string a unit is at run time (used in cache keys). *)
Definition unitName (u : ExtendedTimeUnit) : jsstring :=
  match u with
  | base hour => str "hour"
  | base day => str "day"
  | base date => str "date"
  | base week => str "week"
  | base month => str "month"
  | year => str "year"
  | isoWeek => str "isoWeek"
  end.

(** ** Constants *)

Definition BASE_UNIT_WIDTH : Z := 24.
Definition MAX_ZOOM : Z := 10.
Definition MIN_ZOOM : Z := 1.
Definition DEFAULT_ZOOM : Z := 3.
Definition CACHE_TTL : Z := 5 * 60 * 1000.

(** ** Label capitalisation ([capitalizeString], [capitalizeWords]) *)

(** The Unicode tables behind [String.prototype.normalize],
    [/\p{L}/u] and [toLocaleUpperCase] belong to the JavaScript engine, not to
    this repository: the program is parametrised by them. *)
Record Unicode := {
  isLetter : N -> bool;                   (* \p{L}, on a code point *)
  normalizeNFD : jsstring -> jsstring;    (* str.normalize("NFD") *)
  toLocaleUpperCase : jsstring -> jsstring
}.

(** [\s] of a regular expression, on a code unit. *)
Definition isSpace (c : char) : bool :=
  let c := Z.of_N c in
  ((9 <=? c) && (c <=? 13)) || (c =? 32) || (c =? 160) || (c =? 5760)
  || ((8192 <=? c) && (c <=? 8202)) || (c =? 8232) || (c =? 8233)
  || (c =? 8239) || (c =? 8287) || (c =? 12288) || (c =? 65279).

(** [\.|\,] *)
Definition isDotComma (c : char) : bool :=
  (Z.of_N c =? 46) || (Z.of_N c =? 44).

(** [str.split(/(\s+|\.|\,)/)]: the pieces between separators, with every
    separator (a maximal run of white space, one period or one comma) kept
    as a piece of its own, so pieces and separators alternate. *)
Fixpoint splitWords (s : jsstring) : list jsstring :=
  match s with
  | [] => [[]]
  | c :: s' =>
      let r := splitWords s' in
      if isDotComma c then [] :: [c] :: r
      else if isSpace c then
        match r with
        | [] :: (c2 :: ws) :: rest =>
            if isSpace c2 then [] :: (c :: c2 :: ws) :: rest
            else [] :: [c] :: r
        | _ => [] :: [c] :: r
        end
      else
        match r with
        | w :: rest => (c :: w) :: rest
        | [] => [[c]]
        end
  end.

(** The first code point of a string under the [u] flag, with the number of
    code units it takes (a surrogate pair counts as one code point). *)
Definition firstCodePoint (s : jsstring) : option (N * nat) :=
  match s with
  | [] => None
  | hi :: rest =>
      if ((55296 <=? hi) && (hi <=? 56319))%N then
        match rest with
        | lo :: _ =>
            if ((56320 <=? lo) && (lo <=? 57343))%N
            then Some ((65536 + (hi - 55296) * 1024 + (lo - 56320))%N, 2%nat)
            else Some (hi, 1%nat)
        | [] => Some (hi, 1%nat)
        end
      else Some (hi, 1%nat)
  end.

(** [/^\p{L}/u.test(word)] *)
Definition startsWithLetter (U : Unicode) (word : jsstring) : bool :=
  match firstCodePoint word with
  | Some (cp, _) => isLetter U cp
  | None => false
  end.

(** [s.replace(/^\p{L}/u, letter => letter.toLocaleUpperCase())] *)
Definition replaceFirstLetter (U : Unicode) (s : jsstring) : jsstring :=
  match firstCodePoint s with
  | Some (cp, n) =>
      if isLetter U cp
      then toLocaleUpperCase U (take n s) ++ drop n s
      else s
  | None => s
  end.

Definition capitalizeString (U : Unicode) (s : jsstring) : jsstring :=
  match s with
  | [] => s
  | _ => replaceFirstLetter U (normalizeNFD U s)
  end.

Definition capitalizeWords (U : Unicode) (s : jsstring) : jsstring :=
  concat
    (map (fun word =>
            if startsWithLetter U word then capitalizeString U word else word)
         (splitWords s)).

(** What the specification describes: only the first letter of a
    letter-leading fragment changes, every other code unit stays. *)
Definition capitalizeFirstOnly (U : Unicode) (word : jsstring) : jsstring :=
  match firstCodePoint word with
  | Some (cp, n) =>
      if isLetter U cp
      then toLocaleUpperCase U (take n word) ++ drop n word
      else word
  | None => word
  end.

Definition capitalizeWordsAsSpecified (U : Unicode) (s : jsstring) : jsstring :=
  concat (map (capitalizeFirstOnly U) (splitWords s)).

(** *** The Unicode tables on U+0000..U+00FF

    Modelled from the Unicode Character Database, restricted to Basic Latin
    and the Latin-1 Supplement; code points above U+00FF are left alone, so
    this instance is only meaningful on inputs within that range. *)
Module Latin1.

Definition letter (cp : N) : bool :=
  let c := Z.of_N cp in
  ((65 <=? c) && (c <=? 90)) || ((97 <=? c) && (c <=? 122))
  || (c =? 170) || (c =? 181) || (c =? 186)
  || ((192 <=? c) && (c <=? 214)) || ((216 <=? c) && (c <=? 246))
  || ((248 <=? c) && (c <=? 255)).

(** Canonical decomposition of one code unit: base letter and combining
    mark. *)
Definition decompose (c : char) : jsstring :=
  let z := Z.of_N c in
  let lower := 224 <=? z in
  let b (up : Z) : char := Z.to_N (if lower then up + 32 else up) in
  match (if lower then z - 32 else z) with
  | 192 => [b 65; 768%N] | 193 => [b 65; 769%N] | 194 => [b 65; 770%N]
  | 195 => [b 65; 771%N] | 196 => [b 65; 776%N] | 197 => [b 65; 778%N]
  | 199 => [b 67; 807%N]
  | 200 => [b 69; 768%N] | 201 => [b 69; 769%N] | 202 => [b 69; 770%N]
  | 203 => [b 69; 776%N]
  | 204 => [b 73; 768%N] | 205 => [b 73; 769%N] | 206 => [b 73; 770%N]
  | 207 => [b 73; 776%N]
  | 209 => [b 78; 771%N]
  | 210 => [b 79; 768%N] | 211 => [b 79; 769%N] | 212 => [b 79; 770%N]
  | 213 => [b 79; 771%N] | 214 => [b 79; 776%N]
  | 217 => [b 85; 768%N] | 218 => [b 85; 769%N] | 219 => [b 85; 770%N]
  | 220 => [b 85; 776%N]
  | 221 => [b 89; 769%N]
  | 223 => if lower then [121%N; 776%N] else [c]
  | _ => [c]
  end.

Definition nfd (s : jsstring) : jsstring := concat (map decompose s).

Definition upper1 (c : char) : jsstring :=
  let z := Z.of_N c in
  if (97 <=? z) && (z <=? 122) then [Z.to_N (z - 32)]
  else if z =? 181 then [924%N]
  else if z =? 223 then [83%N; 83%N]
  else if z =? 255 then [376%N]
  else if ((224 <=? z) && (z <=? 246)) || ((248 <=? z) && (z <=? 254))
       then [Z.to_N (z - 32)]
  else [c].

Definition upper (s : jsstring) : jsstring := concat (map upper1 s).

Definition tables : Unicode :=
  {| isLetter := letter; normalizeNFD := nfd; toLocaleUpperCase := upper |}.

End Latin1.

(** ** The date library (dayjs)

    Modelled from the documented behaviour of dayjs and of the ECMAScript
    [Date] object it wraps: the library is a dependency, its code is not part
    of this repository. A value is its civil fields ([$y], [$M], [$D], [$H],
    [$m], [$s], [$ms]); the month is zero-based as in JavaScript. *)
Module Dayjs.

Record t := mk {
  yr : Z;     (* $y *)
  mon : Z;    (* $M, 0 = January *)
  dom : Z;    (* $D, day of the month, from 1 *)
  hr : Z;     (* $H *)
  mnt : Z;    (* $m *)
  sec : Z;    (* $s *)
  msec : Z    (* $ms *)
}.

(** [ManipulateType], as far as the program uses it. *)
Inductive ManipulateType := Hour | Day | Week | Month | Year.

(** What the program needs of a dayjs locale. *)
Record Locale := {
  months : Z -> jsstring;        (* full month names, by zero-based month *)
  monthsShort : Z -> jsstring;   (* abbreviated month names *)
  weekStart : Z                  (* 0 = Sunday *)
}.

Definition MILLISECONDS_A_MINUTE : Z := 60000.
Definition MILLISECONDS_A_HOUR : Z := 3600000.
Definition MILLISECONDS_A_DAY : Z := 86400000.
Definition MILLISECONDS_A_WEEK : Z := 604800000.

Definition isLeapYear (y : Z) : bool :=
  ((y mod 4 =? 0) && negb (y mod 100 =? 0)) || (y mod 400 =? 0).

Definition daysInMonth (y m : Z) : Z :=
  match m with
  | 1 => if isLeapYear y then 29 else 28
  | 3 | 5 | 8 | 10 => 30
  | _ => 31
  end.

(** Days of the year before the first of month [m]. *)
Definition daysBeforeMonth (y m : Z) : Z :=
  let l := if isLeapYear y then 1 else 0 in
  match m with
  | 0 => 0 | 1 => 31 | 2 => 59 + l | 3 => 90 + l | 4 => 120 + l
  | 5 => 151 + l | 6 => 181 + l | 7 => 212 + l | 8 => 243 + l
  | 9 => 273 + l | 10 => 304 + l | _ => 334 + l
  end.

(** ECMAScript's [DayFromYear]: the day number of 1 January of [y],
    counted from 1 January 1970. *)
Definition dayFromYear (y : Z) : Z :=
  365 * (y - 1970) + (y - 1969) / 4 - (y - 1901) / 100 + (y - 1601) / 400.

Definition dayNumber (d : t) : Z :=
  dayFromYear (yr d) + daysBeforeMonth (yr d) (mon d) + (dom d - 1).

(** Milliseconds since the epoch. *)
Definition valueOf (d : t) : Z :=
  dayNumber d * MILLISECONDS_A_DAY + hr d * MILLISECONDS_A_HOUR
  + mnt d * MILLISECONDS_A_MINUTE + sec d * 1000 + msec d.

(** The records that denote a date and time of the calendar. *)
Definition isValid (d : t) : bool :=
  (0 <=? mon d) && (mon d <=? 11)
  && (1 <=? dom d) && (dom d <=? daysInMonth (yr d) (mon d))
  && (0 <=? hr d) && (hr d <? 24)
  && (0 <=? mnt d) && (mnt d <? 60)
  && (0 <=? sec d) && (sec d <? 60)
  && (0 <=? msec d) && (msec d <? 1000).

Definition isBefore (a b : t) : bool := valueOf a <? valueOf b.
Definition isAfter (a b : t) : bool := valueOf b <? valueOf a.

Definition nextDay (d : t) : t :=
  if dom d + 1 <=? daysInMonth (yr d) (mon d)
  then mk (yr d) (mon d) (dom d + 1) (hr d) (mnt d) (sec d) (msec d)
  else if mon d + 1 <=? 11
  then mk (yr d) (mon d + 1) 1 (hr d) (mnt d) (sec d) (msec d)
  else mk (yr d + 1) 0 1 (hr d) (mnt d) (sec d) (msec d).

Definition previousDay (d : t) : t :=
  if 1 <=? dom d - 1
  then mk (yr d) (mon d) (dom d - 1) (hr d) (mnt d) (sec d) (msec d)
  else if 0 <=? mon d - 1
  then mk (yr d) (mon d - 1) (daysInMonth (yr d) (mon d - 1))
          (hr d) (mnt d) (sec d) (msec d)
  else mk (yr d - 1) 11 31 (hr d) (mnt d) (sec d) (msec d).

(** [set(month, $M + n)]: the month is normalised into the year, the day
    of the month is clamped to the length of the target month. *)
Definition addMonths (n : Z) (d : t) : t :=
  let total := mon d + n in
  let y := yr d + total / 12 in
  let m := total mod 12 in
  mk y m (Z.min (dom d) (daysInMonth y m)) (hr d) (mnt d) (sec d) (msec d).

Definition addYears (n : Z) (d : t) : t :=
  let y := yr d + n in
  mk y (mon d) (Z.min (dom d) (daysInMonth y (mon d)))
     (hr d) (mnt d) (sec d) (msec d).

(** [d.add(1, unit)] *)
Definition add1 (u : ManipulateType) (d : t) : t :=
  match u with
  | Hour =>
      if hr d + 1 <? 24
      then mk (yr d) (mon d) (dom d) (hr d + 1) (mnt d) (sec d) (msec d)
      else nextDay (mk (yr d) (mon d) (dom d) 0 (mnt d) (sec d) (msec d))
  | Day => nextDay d
  | Week => Nat.iter 7 nextDay d
  | Month => addMonths 1 d
  | Year => addYears 1 d
  end.

(** Day of the week, 0 = Sunday (1 January 1970 was a Thursday). *)
Definition weekday (d : t) : Z := (dayNumber d + 4) mod 7.

(** [d.startOf(unit)] *)
Definition startOf (L : Locale) (u : ManipulateType) (d : t) : t :=
  match u with
  | Year => mk (yr d) 0 1 0 0 0 0
  | Month => mk (yr d) (mon d) 1 0 0 0 0
  | Week =>
      let wd := weekday d in
      let gap := (if wd <? weekStart L then wd + 7 else wd) - weekStart L in
      let d' := Nat.iter (Z.to_nat gap) previousDay d in
      mk (yr d') (mon d') (dom d') 0 0 0 0
  | Day => mk (yr d) (mon d) (dom d) 0 0 0 0
  | Hour => mk (yr d) (mon d) (dom d) (hr d) 0 0 0
  end.

(** The month difference of moment.js, which dayjs reproduces. *)
Definition monthDiffBody (a b : t) : Q :=
  let wholeMonthDiff := (yr b - yr a) * 12 + (mon b - mon a) in
  let anchor := addMonths wholeMonthDiff a in
  let c := valueOf b - valueOf anchor <? 0 in
  let anchor2 := addMonths (wholeMonthDiff + (if c then -1 else 1)) a in
  Qopp (inject_Z wholeMonthDiff
        + inject_Z (valueOf b - valueOf anchor)
          / inject_Z (if c then valueOf anchor - valueOf anchor2
                      else valueOf anchor2 - valueOf anchor))%Q.

Definition monthDiff (a b : t) : Q :=
  if dom a <? dom b then Qopp (monthDiffBody b a) else monthDiffBody a b.

(** [a.diff(b, unit, true)]: the fractional difference. *)
Definition diff (a b : t) (u : ManipulateType) : Q :=
  let ms := valueOf a - valueOf b in
  match u with
  | Year => (monthDiff a b / inject_Z 12)%Q
  | Month => monthDiff a b
  | Week => (inject_Z ms / inject_Z MILLISECONDS_A_WEEK)%Q
  | Day => (inject_Z ms / inject_Z MILLISECONDS_A_DAY)%Q
  | Hour => (inject_Z ms / inject_Z MILLISECONDS_A_HOUR)%Q
  end.

(** ISO week of the year (plugin [isoWeek]): the week of the Thursday of
    the current ISO week, counted from the first Thursday of its year. *)
Definition isoWeekOfYear (d : t) : Z :=
  let isoWeekday := if weekday d =? 0 then 7 else weekday d in
  let thursday := dayNumber d + (4 - isoWeekday) in
  let y :=
    if thursday <? dayFromYear (yr d) then yr d - 1
    else if dayFromYear (yr d + 1) <=? thursday then yr d + 1
    else yr d in
  (thursday - dayFromYear y) / 7 + 1.

Definition pad (n : nat) (z : Z) : jsstring := padStart0 n (numberToString z).

(** [d.format(fmt)] for the tokens the display formats of the program use
    ([YYYY], [MMMM], [MMM], [DD], [HH], [WW]); any other character is
    copied. *)
Fixpoint format (L : Locale) (d : t) (fmt : jsstring) : jsstring :=
  match fmt with
  | 89%N :: 89%N :: 89%N :: 89%N :: r => pad 4 (yr d) ++ format L d r
  | 77%N :: 77%N :: 77%N :: 77%N :: r => months L (mon d) ++ format L d r
  | 77%N :: 77%N :: 77%N :: r => monthsShort L (mon d) ++ format L d r
  | 68%N :: 68%N :: r => pad 2 (dom d) ++ format L d r
  | 72%N :: 72%N :: r => pad 2 (hr d) ++ format L d r
  | 87%N :: 87%N :: r => pad 2 (isoWeekOfYear d) ++ format L d r
  | c :: r => c :: format L d r
  | [] => []
  end.

Definition weekdayNameUTC (wd : Z) : jsstring :=
  match wd with
  | 0 => str "Sun" | 1 => str "Mon" | 2 => str "Tue" | 3 => str "Wed"
  | 4 => str "Thu" | 5 => str "Fri" | _ => str "Sat"
  end.

Definition monthNameUTC (m : Z) : jsstring :=
  match m with
  | 0 => str "Jan" | 1 => str "Feb" | 2 => str "Mar" | 3 => str "Apr"
  | 4 => str "May" | 5 => str "Jun" | 6 => str "Jul" | 7 => str "Aug"
  | 8 => str "Sep" | 9 => str "Oct" | 10 => str "Nov" | _ => str "Dec"
  end.

(** [String(d)], that is [Date.prototype.toUTCString]. *)
Definition toString (d : t) : jsstring :=
  weekdayNameUTC (weekday d) ++ str ", " ++ pad 2 (dom d) ++ str " "
  ++ monthNameUTC (mon d) ++ str " "
  ++ (if yr d <? 0 then str "-" else []) ++ pad 4 (Z.abs (yr d)) ++ str " "
  ++ pad 2 (hr d) ++ str ":" ++ pad 2 (mnt d) ++ str ":" ++ pad 2 (sec d)
  ++ str " GMT".

(** The English locale, dayjs's default. *)
Definition en : Locale :=
  {| months := fun m =>
       match m with
       | 0 => str "January" | 1 => str "February" | 2 => str "March"
       | 3 => str "April" | 4 => str "May" | 5 => str "June"
       | 6 => str "July" | 7 => str "August" | 8 => str "September"
       | 9 => str "October" | 10 => str "November" | _ => str "December"
       end;
     monthsShort := monthNameUTC;
     weekStart := 0 |}.

End Dayjs.

Abbreviation Dayjs := Dayjs.t.

#[global] Instance Dayjs_eq_dec : EqDecision Dayjs.
Proof. solve_decision. Defined.

(** ** The composable [useTimeaxisUnits] *)

(** [TimeaxisUnit], with the holiday fields the composable adds. [date] is
    the instant of the JavaScript [Date]. *)
Record TimeaxisUnit := {
  label : jsstring;
  value : jsstring;
  date_ : Z;
  width : jsstring;
  isHoliday : bool;
  holidayName : option jsstring;
  holidayType : option jsstring
}.

(** What the holiday service answers for a date. *)
Record HolidayInfo := {
  info_isHoliday : bool;
  info_holidayName : option jsstring;
  info_holidayType : option jsstring
}.

Record CacheEntry := {
  timestamp : Z;
  units : list TimeaxisUnit
}.

(** The reactive values of [GGanttChartConfig] the composable reads;
    [chartStart] and [chartEnd] are the parsed [chartStartDayjs] and
    [chartEndDayjs] of [useDayjsHelper]. *)
Record GGanttChartConfig := {
  precision : TimeUnit;
  holidayHighlight : bool;
  locale : Dayjs.Locale;
  enableMinutes : bool;
  chartStart : Dayjs;
  chartEnd : Dayjs
}.

(** The state of one chart instance: the configuration it was given, its
    two refs and its two cache maps. *)
Record Instance := {
  config : GGanttChartConfig;
  internalPrecision : TimeUnit;
  zoomLevel : Z;
  cacheLower : gmap jsstring CacheEntry;
  cacheUpper : gmap jsstring CacheEntry
}.

(** [useTimeaxisUnits(config)]: the initial state. *)
Definition useTimeaxisUnits (cfg : GGanttChartConfig) : Instance :=
  {| config := cfg;
     internalPrecision := precision cfg;
     zoomLevel := DEFAULT_ZOOM;
     cacheLower := ∅;
     cacheUpper := ∅ |}.

(** The table [displayFormats], keyed by [TimeUnit | "year"]. *)
Definition displayFormats (key : ExtendedTimeUnit) : option jsstring :=
  match key with
  | base hour => Some (str "HH")
  | base date => Some (str "DD.MMM")
  | base day => Some (str "DD.MMM")
  | base week => Some (str "WW")
  | base month => Some (str "MMMM YYYY")
  | year => Some (str "YYYY")
  | isoWeek => None
  end.

Definition getDisplayFormat (unit : ExtendedTimeUnit) : jsstring :=
  if decide (unit = isoWeek) then str "WW"
  else default (str "DD.MMM") (displayFormats unit).

Definition precisionHierarchy : list TimeUnit := [hour; day; week; month].

(** [Array.prototype.indexOf]: the first index of [x], or -1. *)
Fixpoint indexOfFrom (x : TimeUnit) (l : list TimeUnit) (i : Z) : Z :=
  match l with
  | [] => -1
  | y :: l' => if decide (x = y) then i else indexOfFrom x l' (i + 1)
  end.

Definition indexOf (l : list TimeUnit) (x : TimeUnit) : Z := indexOfFrom x l 0.

(** [arr[i]] ([None] is JavaScript's [undefined]). *)
Definition atIndex (l : list TimeUnit) (i : Z) : option TimeUnit :=
  if i <? 0 then None else l !! Z.to_nat i.

Definition unitWidth (inst : Instance) : Z := BASE_UNIT_WIDTH * zoomLevel inst.

(** The non-null assertions [!] of the source have no effect at run time;
    the guards keep both indices within the array ([hierarchy_next_defined],
    [hierarchy_previous_defined]), so the default below is never taken. *)
Definition getNextPrecision (currentPrecision : TimeUnit) : TimeUnit :=
  let currentIndex := indexOf precisionHierarchy currentPrecision in
  if currentIndex <? Z.of_nat (length precisionHierarchy) - 1
  then default currentPrecision (atIndex precisionHierarchy (currentIndex + 1))
  else currentPrecision.

Definition getPreviousPrecision (configPrecision currentPrecision : TimeUnit)
  : TimeUnit :=
  let currentIndex := indexOf precisionHierarchy currentPrecision in
  let configIndex := indexOf precisionHierarchy configPrecision in
  if (0 <? currentIndex) && (configIndex <? currentIndex)
  then default currentPrecision (atIndex precisionHierarchy (currentIndex - 1))
  else currentPrecision.

Definition upperPrecision (inst : Instance) : ExtendedTimeUnit :=
  match internalPrecision inst with
  | hour => base day
  | day => base month
  | date => base month
  | week => base month
  | month => year
  end.

Definition getCacheKey (startDate endDate : Dayjs) (p : ExtendedTimeUnit)
    (zoom : Z) : jsstring :=
  numberToString (Dayjs.valueOf startDate) ++ str "-"
  ++ numberToString (Dayjs.valueOf endDate) ++ str "-"
  ++ unitName p ++ str "-" ++ numberToString zoom.

(** [getFromCache(cacheMap, key)] at clock reading [now]: the answer and
    the map afterwards. *)
Definition getFromCache (cacheMap : gmap jsstring CacheEntry) (key : jsstring)
    (now : Z) : option (list TimeaxisUnit) * gmap jsstring CacheEntry :=
  match cacheMap !! key with
  | None => (None, cacheMap)
  | Some entry =>
      if CACHE_TTL <? now - timestamp entry
      then (None, delete key cacheMap)
      else (Some (units entry), cacheMap)
  end.

Definition setInCache (cacheMap : gmap jsstring CacheEntry) (key : jsstring)
    (us : list TimeaxisUnit) (now : Z) : gmap jsstring CacheEntry :=
  <[key := {| timestamp := now; units := us |}]> cacheMap.

Definition getDayjsUnit (unit : ExtendedTimeUnit) : Dayjs.ManipulateType :=
  match unit with
  | base hour => Dayjs.Hour
  | base day => Dayjs.Day
  | base date => Dayjs.Day
  | base week => Dayjs.Week
  | base month => Dayjs.Month
  | year => Dayjs.Year
  | isoWeek => Dayjs.Week
  end.

(** [`${n}px`] *)
Definition px (n : Z) : jsstring := numberToString n ++ str "px".

(** [cleanExpiredCache] on one of the two maps. *)
Definition sweep (now : Z) (m : gmap jsstring CacheEntry)
  : gmap jsstring CacheEntry :=
  filter (fun kv => now - timestamp kv.2 <= CACHE_TTL) m.

Definition cleanExpiredCache (now : Z) (inst : Instance) : Instance :=
  {| config := config inst;
     internalPrecision := internalPrecision inst;
     zoomLevel := zoomLevel inst;
     cacheLower := sweep now (cacheLower inst);
     cacheUpper := sweep now (cacheUpper inst) |}.

(** The labels [(i * step).toString().padStart(2, "0")], [i] below
    [60 / step]. *)
Definition minuteLabels (step : Z) : list jsstring :=
  map (fun i => padStart0 2 (numberToString (Z.of_nat i * step)))
      (seq 0 (Z.to_nat (60 / step))).

Definition calculateMinuteSteps (inst : Instance) : list jsstring :=
  if negb (enableMinutes (config inst))
     || negb (bool_decide (internalPrecision inst = hour))
  then []
  else
    let cellWidth := unitWidth inst in
    let minCellWidth := 16 in
    let possibleDivisions := cellWidth / minCellWidth in
    if 60 <=? possibleDivisions then minuteLabels 1
    else if 12 <=? possibleDivisions then minuteLabels 5
    else if 6 <=? possibleDivisions then minuteLabels 10
    else if 4 <=? possibleDivisions then minuteLabels 15
    else if 2 <=? possibleDivisions then minuteLabels 30
    else [str "00"].

Definition withZoom (inst : Instance) (p : TimeUnit) (z : Z) : Instance :=
  {| config := config inst;
     internalPrecision := p;
     zoomLevel := z;
     cacheLower := cacheLower inst;
     cacheUpper := cacheUpper inst |}.

Definition adjustZoomAndPrecision (increase : bool) (inst : Instance)
  : Instance :=
  if increase then
    if zoomLevel inst =? MAX_ZOOM then
      let previousPrecision :=
        getPreviousPrecision (precision (config inst)) (internalPrecision inst) in
      if decide (previousPrecision <> internalPrecision inst)
      then withZoom inst previousPrecision MIN_ZOOM
      else inst
    else withZoom inst (internalPrecision inst) (zoomLevel inst + 1)
  else
    if zoomLevel inst =? MIN_ZOOM then
      let nextPrecision := getNextPrecision (internalPrecision inst) in
      if decide (nextPrecision <> internalPrecision inst)
      then withZoom inst nextPrecision MAX_ZOOM
      else inst
    else withZoom inst (internalPrecision inst) (zoomLevel inst - 1).

(** The watcher of [configPrecision]: when the configured precision
    changes, the internal precision follows it and the zoom level goes back
    to its default. *)
Definition setConfigPrecision (p : TimeUnit) (inst : Instance) : Instance :=
  let cfg := config inst in
  let cfg' :=
    {| precision := p;
       holidayHighlight := holidayHighlight cfg;
       locale := locale cfg;
       enableMinutes := enableMinutes cfg;
       chartStart := chartStart cfg;
       chartEnd := chartEnd cfg |} in
  if decide (p = precision cfg) then inst
  else
    {| config := cfg';
       internalPrecision := p;
       zoomLevel := DEFAULT_ZOOM;
       cacheLower := cacheLower inst;
       cacheUpper := cacheUpper inst |}.

(** The watchers that clear both maps (on the chart bounds, the internal
    precision, the zoom level, the holiday flag or the locale changing). *)
Definition clearCaches (inst : Instance) : Instance :=
  {| config := config inst;
     internalPrecision := internalPrecision inst;
     zoomLevel := zoomLevel inst;
     cacheLower := ∅;
     cacheUpper := ∅ |}.

(** What reaches the state machine from outside. *)
Inductive Event :=
  | Zoom (increase : bool)
  | ConfigPrecision (p : TimeUnit).

(** What an event does to the precision and the zoom level. The maps are
    not touched here: Vue runs the watcher that clears them afterwards
    ([cacheWatcher]). *)
Definition step (inst : Instance) (e : Event) : Instance :=
  match e with
  | Zoom increase => adjustZoomAndPrecision increase inst
  | ConfigPrecision p => setConfigPrecision p inst
  end.

(** Events in a row, with no watcher run on the maps in between. *)
Definition run (inst : Instance) (es : list Event) : Instance :=
  fold_left step es inst.

(** The last watcher of the composable, on the chart bounds, the internal
    precision and the zoom level: when it runs and one of them is no longer
    what it was at its last run ([seen]), both maps are cleared. *)
Definition cacheWatcher (seen inst : Instance) : Instance :=
  if decide (chartStart (config seen) = chartStart (config inst)
             /\ chartEnd (config seen) = chartEnd (config inst)
             /\ internalPrecision seen = internalPrecision inst
             /\ zoomLevel seen = zoomLevel inst)
  then inst
  else clearCaches inst.

(** An event that comes on its own: the watchers run before the next. *)
Definition tick (inst : Instance) (e : Event) : Instance :=
  cacheWatcher inst (step inst e).

Definition runTicks (inst : Instance) (es : list Event) : Instance :=
  fold_left tick es inst.

(** *** The unit partitioner ([timeaxisUnits]) *)

Record TimeaxisResult := {
  upperUnits : list TimeaxisUnit;
  lowerUnits : list TimeaxisUnit;
  globalMinuteStep : list jsstring
}.

Section Partitioner.

(** The collaborators outside the repository: the engine's Unicode tables
    and the holiday service [getHolidayInfo] of [useHolidays]. *)
Context (U : Unicode) (getHolidayInfo : Z -> option HolidayInfo).

Definition createTimeaxisUnit (cfg : GGanttChartConfig) (moment : Dayjs)
    (format : jsstring) (w : jsstring) : TimeaxisUnit :=
  let date := Dayjs.valueOf moment in
  let holidayInfo := if holidayHighlight cfg then getHolidayInfo date else None in
  let formattedLabel := Dayjs.format (locale cfg) moment format in
  let capitalizedLabel := capitalizeWords U formattedLabel in
  {| label := capitalizedLabel;
     value := Dayjs.toString moment;
     date_ := date;
     width := w;
     isHoliday := from_option info_isHoliday false holidayInfo;
     holidayName := holidayInfo ≫= info_holidayName;
     holidayType := holidayInfo ≫= info_holidayType |}.

(** The first [while] loop: one cell per unit of the internal precision,
    from the cursor up to the end of the chart. (The map
    [lowerUnitsByStartTime] the source also fills is never read.) *)
Fixpoint lowerLoop (fuel : nat) (inst : Instance) (currentLower : Dayjs)
  : option (list TimeaxisUnit) :=
  if Dayjs.isBefore currentLower (chartEnd (config inst)) then
    match fuel with
    | O => None
    | S fuel' =>
        let unit :=
          createTimeaxisUnit (config inst) currentLower
            (getDisplayFormat (internalPrecision inst))
            (px (unitWidth inst)) in
        cons unit <$>
          lowerLoop fuel' inst
            (Dayjs.add1 (getDayjsUnit (internalPrecision inst)) currentLower)
    end
  else Some [].

(** [Math.ceil(effectiveEnd.diff(effectiveStart, unit, true))], the unit
    chosen by the internal precision. *)
Definition unitsInPeriod (p : TimeUnit) (effectiveStart effectiveEnd : Dayjs)
  : Z :=
  Qceiling
    (match p with
     | day => Dayjs.diff effectiveEnd effectiveStart Dayjs.Day
     | month => Dayjs.diff effectiveEnd effectiveStart Dayjs.Month
     | week => Dayjs.diff effectiveEnd effectiveStart Dayjs.Week
     | _ => Dayjs.diff effectiveEnd effectiveStart Dayjs.Hour
     end).

(** The second [while] loop: one cell per unit of the upper precision,
    clipped to the chart. *)
Fixpoint upperLoop (fuel : nat) (inst : Instance) (currentUpper : Dayjs)
  : option (list TimeaxisUnit) :=
  let cfg := config inst in
  if Dayjs.isBefore currentUpper (chartEnd cfg) then
    match fuel with
    | O => None
    | S fuel' =>
        let nextUpper :=
          Dayjs.add1 (getDayjsUnit (upperPrecision inst)) currentUpper in
        let effectiveStart :=
          if Dayjs.isBefore currentUpper (chartStart cfg)
          then chartStart cfg else currentUpper in
        let effectiveEnd :=
          if Dayjs.isAfter nextUpper (chartEnd cfg)
          then chartEnd cfg else nextUpper in
        let n := unitsInPeriod (internalPrecision inst) effectiveStart effectiveEnd in
        let totalWidth := n * unitWidth inst in
        let rest := upperLoop fuel' inst nextUpper in
        if 0 <? totalWidth then
          cons (createTimeaxisUnit cfg currentUpper
                  (getDisplayFormat (upperPrecision inst)) (px totalWidth))
            <$> rest
        else rest
    end
  else Some [].

(** The computed [timeaxisUnits] evaluated at clock reading [now]: its value
    and the instance with the caches as the evaluation leaves them. *)
Definition timeaxisUnits (fuel : nat) (now : Z) (inst : Instance)
  : option (TimeaxisResult * Instance) :=
  let cfg := config inst in
  let lowerCacheKey :=
    getCacheKey (chartStart cfg) (chartEnd cfg) (internalPrecision inst)
      (zoomLevel inst) in
  let '(cachedLower, cacheL) := getFromCache (cacheLower inst) lowerCacheKey now in
  lowerResult ←
    match cachedLower with
    | Some us => Some (us, cacheL)
    | None =>
        us ← lowerLoop fuel inst (chartStart cfg);
        Some (us, setInCache cacheL lowerCacheKey us now)
    end;
  let '(lowerUnits, cacheL') := lowerResult in
  let upperCacheKey :=
    getCacheKey (chartStart cfg) (chartEnd cfg) (upperPrecision inst)
      (zoomLevel inst) in
  let '(cachedUpper, cacheU) := getFromCache (cacheUpper inst) upperCacheKey now in
  upperResult ←
    match cachedUpper with
    | Some us => Some (us, cacheU)
    | None =>
        us ←
          upperLoop fuel inst
            (Dayjs.startOf (locale cfg) (getDayjsUnit (upperPrecision inst))
               (chartStart cfg));
        Some (us, setInCache cacheU upperCacheKey us now)
    end;
  let '(upperUnits, cacheU') := upperResult in
  let inst' :=
    {| config := cfg;
       internalPrecision := internalPrecision inst;
       zoomLevel := zoomLevel inst;
       cacheLower := cacheL';
       cacheUpper := cacheU' |} in
  let minuteSteps := calculateMinuteSteps inst' in
  Some ({| upperUnits := upperUnits;
           lowerUnits := lowerUnits;
           globalMinuteStep := minuteSteps |},
        cleanExpiredCache now inst').

End Partitioner.

(** The total of the pixel widths of a row ([None] if a width is not of
    the form ["<integer>px"]). *)
Fixpoint totalWidth (us : list TimeaxisUnit) : option Z :=
  match us with
  | [] => Some 0
  | u :: rest =>
      w ← pxValue (width u);
      t ← totalWidth rest;
      Some (w + t)
  end.

(** *** Orders and predicates the specification speaks of *)

(** The fineness of a precision as the specification orders it:
    [hour < day < week < month], with [date] the synonym of [day]. *)
Definition fineness (p : TimeUnit) : Z :=
  match p with
  | hour => 0
  | day => 1
  | date => 1
  | week => 2
  | month => 3
  end.

Definition strictlyFiner (p q : TimeUnit) : Prop := fineness p < fineness q.

(** The two decimal digits of a minute. *)
Definition twoDigits (m : Z) : jsstring := [digitChar (m / 10); digitChar (m mod 10)].

(** The minutes of one hour that are multiples of [step], ascending, as
    two-digit labels. *)
Definition minutesEvery (step : Z) : list jsstring :=
  map twoDigits
      (filter (fun m => m mod step = 0) (map Z.of_nat (seq 0 60))).

(** A word fragment holds no boundary character; a separator fragment is
    a non-empty run of white space, one period or one comma. *)
Definition isWord (w : jsstring) : Prop :=
  Forall (fun c => isSpace c = false /\ isDotComma c = false) w.

Definition isSeparator (sep : jsstring) : Prop :=
  (sep <> [] /\ Forall (fun c => isSpace c = true) sep)
  \/ sep = [46%N] \/ sep = [44%N].

(** Word fragments and separators, alternating, from a word to a word. *)
Inductive Pieces : list jsstring -> Prop :=
  | pieces_last w : isWord w -> Pieces [w]
  | pieces_cons w sep rest :
      isWord w -> isSeparator sep -> Pieces rest -> Pieces (w :: sep :: rest).

Definition isAsciiLetter (c : N) : bool :=
  (((65 <=? c) && (c <=? 90)) || ((97 <=? c) && (c <=? 122)))%N.

(** What the examples of the specification need of the engine's Unicode
    tables: their standard behaviour on the ASCII range. *)
Record AsciiConformant (U : Unicode) : Prop := {
  ascii_letter : forall c, (c < 128)%N -> isLetter U c = isAsciiLetter c;
  ascii_nfd :
    forall s, Forall (fun c => (c < 128)%N) s -> normalizeNFD U s = s;
  ascii_upper :
    forall c, (97 <= c <= 122)%N -> toLocaleUpperCase U [c] = [(c - 32)%N]
}.

(** The classes of the two regular expressions of [capitalizeWords] do not
    meet: no white space, period or comma is a letter ([\p{L}]). *)
Definition BoundariesAreNotLetters (U : Unicode) : Prop :=
  forall c, isSpace c || isDotComma c = true -> isLetter U c = false.

(** What becomes of a word fragment: one that starts with a letter is put
    in NFD form and the first letter of that form in upper case; any other is
    kept. *)
Definition capitalizedWord (U : Unicode) (w : jsstring) : jsstring :=
  if startsWithLetter U w
  then capitalizeFirstOnly U (normalizeNFD U w)
  else w.

(** The fragments of the result: the words capitalised, the separators
    between them copied. *)
Fixpoint rebuild (U : Unicode) (fragments : list jsstring) : list jsstring :=
  match fragments with
  | w :: sep :: rest => capitalizedWord U w :: sep :: rebuild U rest
  | [w] => [capitalizedWord U w]
  | [] => []
  end.

(** The length in milliseconds of the units of fixed length. *)
Definition unitLength (u : Dayjs.ManipulateType) : Z :=
  match u with
  | Dayjs.Hour => Dayjs.MILLISECONDS_A_HOUR
  | Dayjs.Day => Dayjs.MILLISECONDS_A_DAY
  | _ => Dayjs.MILLISECONDS_A_WEEK
  end.

(** The units the upper row groups by. *)
Definition isPeriod (u : Dayjs.ManipulateType) : Prop :=
  u = Dayjs.Day \/ u = Dayjs.Month \/ u = Dayjs.Year.

(** The month of a date, counted from year 0. *)
Definition monthIndex (d : Dayjs) : Z := Dayjs.yr d * 12 + Dayjs.mon d.

(** The milliseconds from the start of its month to a date. *)
Definition withinMonth (d : Dayjs) : Z :=
  (Dayjs.dom d - 1) * Dayjs.MILLISECONDS_A_DAY
  + Dayjs.hr d * Dayjs.MILLISECONDS_A_HOUR
  + Dayjs.mnt d * Dayjs.MILLISECONDS_A_MINUTE + Dayjs.sec d * 1000
  + Dayjs.msec d.

(** The day number of the first day of the month of index [i]. *)
Definition firstOfMonth (i : Z) : Z :=
  Dayjs.dayFromYear (i / 12) + Dayjs.daysBeforeMonth (i / 12) (i mod 12).

(** A date of the calendar on or before the 28th of its month: adding
    months to it never clamps the day. *)
Definition safeDay (d : Dayjs) : Prop :=
  Dayjs.isValid d = true /\ Dayjs.dom d <= 28.

(** The number of month steps from [a] that stay before [b] (for [a]
    before [b]). *)
Definition monthsBetween (a b : Dayjs) : Z :=
  monthIndex b - monthIndex a
  + (if withinMonth a <? withinMonth b then 1 else 0).

(** The quotient [a / b] rounded up. *)
Definition ceilDiv (a b : Z) : Z := - ((- a) / b).

(** The cursors the lower loop visits: the skeleton of [lowerLoop]. *)
Fixpoint lowerCursors (fuel : nat) (chartEnd : Dayjs)
    (u : Dayjs.ManipulateType) (currentLower : Dayjs) : option (list Dayjs) :=
  if Dayjs.isBefore currentLower chartEnd then
    match fuel with
    | O => None
    | S fuel' =>
        cons currentLower <$>
          lowerCursors fuel' chartEnd u (Dayjs.add1 u currentLower)
    end
  else Some [].

(** The cursors at which the upper loop emits a cell, each with the total
    width of the cell: the skeleton of [upperLoop]. *)
Fixpoint upperCells (fuel : nat) (chartStart chartEnd : Dayjs) (p : TimeUnit)
    (u : Dayjs.ManipulateType) (w : Z) (currentUpper : Dayjs)
  : option (list (Dayjs * Z)) :=
  if Dayjs.isBefore currentUpper chartEnd then
    match fuel with
    | O => None
    | S fuel' =>
        let nextUpper := Dayjs.add1 u currentUpper in
        let effectiveStart :=
          if Dayjs.isBefore currentUpper chartStart
          then chartStart else currentUpper in
        let effectiveEnd :=
          if Dayjs.isAfter nextUpper chartEnd then chartEnd else nextUpper in
        let totalWidth := unitsInPeriod p effectiveStart effectiveEnd * w in
        let rest := upperCells fuel' chartStart chartEnd p u w nextUpper in
        if 0 <? totalWidth then cons (currentUpper, totalWidth) <$> rest
        else rest
    end
  else Some [].

(** The precisions whose unit has a fixed length. *)
Definition fixedLength (p : TimeUnit) : Prop := p = hour \/ p = day \/ p = week.

(** The charts whose rows reconcile: the precision has a unit of fixed
    length, or it is [month] and neither end of the chart is past the 28th
    of its month. *)
Definition steady (inst : Instance) : Prop :=
  fixedLength (internalPrecision inst)
  \/ (internalPrecision inst = month
      /\ safeDay (chartStart (config inst))
      /\ safeDay (chartEnd (config inst))).

(** The sum of the widths of the cells of [upperCells]. *)
Definition sumWidths (cells : list (Dayjs * Z)) : Z :=
  foldr (fun c acc => c.2 + acc) 0 cells.

(** Width reconciliation as the specification means it: both rows have a
    total width in pixels, the upper total is at least the lower total, and
    exceeds it by less than one cell width per upper cell, which is the most
    that rounding the unit count of each upper cell up can add. *)
Definition Reconciled (r : TimeaxisResult) (cellWidth : Z) : Prop :=
  exists lowerTotal upperTotal,
    totalWidth (lowerUnits r) = Some lowerTotal
    /\ totalWidth (upperUnits r) = Some upperTotal
    /\ lowerTotal <= upperTotal
    /\ upperTotal <= lowerTotal + (Z.of_nat (length (upperUnits r)) - 1) * cellWidth.


(** *** The charts of the examples *)

(** 25 December 2024 08:00 to 27 December 2024 23:00, by the hour. *)
Definition endToEndChart (hh em : bool) (loc : Dayjs.Locale) : GGanttChartConfig :=
  {| precision := hour; holidayHighlight := hh; locale := loc;
     enableMinutes := em;
     chartStart := Dayjs.mk 2024 11 25 8 0 0 0;
     chartEnd := Dayjs.mk 2024 11 27 23 0 0 0 |}.

(** 31 January 2024 to 30 March 2024, by the month. *)
Definition monthEndChart : GGanttChartConfig :=
  {| precision := month; holidayHighlight := false; locale := Dayjs.en;
     enableMinutes := false;
     chartStart := Dayjs.mk 2024 0 31 0 0 0 0;
     chartEnd := Dayjs.mk 2024 2 30 0 0 0 0 |}.

(** 25 December 2024 to 27 December 2024, with the precision [date]. *)
Definition dateChart : GGanttChartConfig :=
  {| precision := date; holidayHighlight := false; locale := Dayjs.en;
     enableMinutes := false;
     chartStart := Dayjs.mk 2024 11 25 0 0 0 0;
     chartEnd := Dayjs.mk 2024 11 27 0 0 0 0 |}.

(** 25 December 2024 to 1 December 2024: the end comes first. *)
Definition invertedChart : GGanttChartConfig :=
  {| precision := day; holidayHighlight := false; locale := Dayjs.en;
     enableMinutes := false;
     chartStart := Dayjs.mk 2024 11 25 0 0 0 0;
     chartEnd := Dayjs.mk 2024 11 1 0 0 0 0 |}.

(** A service that knows no holiday. *)
Definition noHolidays (_ : Z) : option HolidayInfo := None.

(** *** Names for the further properties *)

(** Two states with the same configuration, internal precision and zoom
    level: they differ in their caches at most. *)
Definition sameControls (a b : Instance) : Prop :=
  config a = config b
  /\ internalPrecision a = internalPrecision b
  /\ zoomLevel a = zoomLevel b.

(** The keys under which one evaluation of [timeaxisUnits] reads and
    writes the two caches. *)
Definition lowerCacheKey (inst : Instance) : jsstring :=
  getCacheKey (chartStart (config inst)) (chartEnd (config inst))
    (internalPrecision inst) (zoomLevel inst).

Definition upperCacheKey (inst : Instance) : jsstring :=
  getCacheKey (chartStart (config inst)) (chartEnd (config inst))
    (upperPrecision inst) (zoomLevel inst).

(** Reads back a decimal integer, as [numberToString] writes it, from the
    front of a string; the rest of the string is returned with it. *)
Definition readInt (s : jsstring) : Z * jsstring :=
  match s with
  | c :: s' =>
      if (c =? 45)%N
      then let '(u, r) := readDigits s' in (- Z.of_N (N.of_uint u), r)
      else let '(u, r) := readDigits s in (Z.of_N (N.of_uint u), r)
  | [] => (0, [])
  end.

(** A string that does not go on with a decimal digit. *)
Definition noDigitAhead (r : jsstring) : Prop :=
  match r with
  | [] => True
  | c :: _ => (c < 48)%N \/ (57 < c)%N
  end.

(** An entry that a read at clock reading [now] would still return. *)
Definition fresh (now : Z) (entry : CacheEntry) : Prop :=
  now - timestamp entry <= CACHE_TTL.

(* ================================================================== *)
(** * Part II. Properties                                             *)
(* ================================================================== *)

(** ** The calendar *)

Section Calendar.

Import Dayjs.

Lemma isValid_spec (d : Dayjs) :
  isValid d = true <->
  0 <= mon d <= 11 /\ 1 <= dom d <= daysInMonth (yr d) (mon d)
  /\ 0 <= hr d < 24 /\ 0 <= mnt d < 60 /\ 0 <= sec d < 60
  /\ 0 <= msec d < 1000.
Proof.
  unfold isValid. rewrite !andb_true_iff, !Z.leb_le, !Z.ltb_lt. lia.
Qed.

Lemma dayFromYear_succ (y : Z) :
  dayFromYear (y + 1) = dayFromYear y + (if isLeapYear y then 366 else 365).
Proof.
  unfold dayFromYear, isLeapYear.
  destruct (Z.eqb_spec (y mod 4) 0), (Z.eqb_spec (y mod 100) 0),
    (Z.eqb_spec (y mod 400) 0); cbn [negb andb orb];
    Z.div_mod_to_equations; lia.
Qed.

Lemma month_cases (m : Z) :
  0 <= m <= 11 ->
  m = 0 \/ m = 1 \/ m = 2 \/ m = 3 \/ m = 4 \/ m = 5 \/ m = 6 \/ m = 7
  \/ m = 8 \/ m = 9 \/ m = 10 \/ m = 11.
Proof. lia. Qed.

Lemma daysInMonth_bounds (y m : Z) : 28 <= daysInMonth y m <= 31.
Proof.
  unfold daysInMonth.
  destruct m as [| p | p]; try lia;
    repeat (destruct p as [p | p |]; try lia);
    destruct (isLeapYear y); lia.
Qed.

Lemma daysBeforeMonth_succ (y m : Z) :
  0 <= m <= 10 ->
  daysBeforeMonth y (m + 1) = daysBeforeMonth y m + daysInMonth y m.
Proof.
  intros H. assert (H' : 0 <= m <= 11) by lia.
  apply month_cases in H';
  repeat (destruct H' as [H' | H']; [subst |]); [.. | subst];
    try lia; unfold daysBeforeMonth, daysInMonth; cbn;
    destruct (isLeapYear y); reflexivity.
Qed.

Lemma daysBeforeMonth_december (y : Z) :
  daysBeforeMonth y 11 + 31 = if isLeapYear y then 366 else 365.
Proof. unfold daysBeforeMonth. destruct (isLeapYear y); reflexivity. Qed.

Lemma daysBeforeMonth_bounds (y m : Z) :
  0 <= m <= 11 ->
  0 <= daysBeforeMonth y m
  /\ daysBeforeMonth y m + daysInMonth y m <= (if isLeapYear y then 366 else 365).
Proof.
  intros H. apply month_cases in H.
  repeat (destruct H as [H | H]; [subst |]); [.. | subst];
    unfold daysBeforeMonth, daysInMonth; cbn;
    destruct (isLeapYear y); lia.
Qed.

(** The day after a valid date is valid and is numbered one more. *)
Lemma nextDay_spec (d : Dayjs) :
  isValid d = true ->
  isValid (nextDay d) = true
  /\ dayNumber (nextDay d) = dayNumber d + 1
  /\ hr (nextDay d) = hr d /\ mnt (nextDay d) = mnt d
  /\ sec (nextDay d) = sec d /\ msec (nextDay d) = msec d.
Proof.
  rewrite isValid_spec. intros (Hm & Hd & Ht).
  unfold nextDay.
  destruct (Z.leb_spec (dom d + 1) (daysInMonth (yr d) (mon d))).
  - rewrite isValid_spec. unfold dayNumber. cbn. repeat split; first [reflexivity | lia].
  - destruct (Z.leb_spec (mon d + 1) 11).
    + rewrite isValid_spec. unfold dayNumber. cbn.
      pose proof (daysInMonth_bounds (yr d) (mon d + 1)).
      rewrite daysBeforeMonth_succ by lia. repeat split; first [reflexivity | lia].
    + rewrite isValid_spec. unfold dayNumber. cbn.
      assert (Em : mon d = 11) by lia.
      rewrite Em in *. rewrite dayFromYear_succ.
      pose proof (daysBeforeMonth_december (yr d)).
      change (daysInMonth (yr d) 11) with 31 in *.
      change (daysInMonth (yr d + 1) 0) with 31.
      change (daysBeforeMonth (yr d + 1) 0) with 0.
      repeat split; first [reflexivity | lia].
Qed.

Lemma valueOf_nextDay (d : Dayjs) :
  isValid d = true -> valueOf (nextDay d) = valueOf d + MILLISECONDS_A_DAY.
Proof.
  intros H. destruct (nextDay_spec d H) as (_ & Hn & Hh & Hm & Hs & Hms).
  unfold valueOf. rewrite Hn, Hh, Hm, Hs, Hms.
  unfold MILLISECONDS_A_DAY. lia.
Qed.

Lemma iter_nextDay (n : nat) (d : Dayjs) :
  isValid d = true ->
  isValid (Nat.iter n nextDay d) = true
  /\ valueOf (Nat.iter n nextDay d) = valueOf d + Z.of_nat n * MILLISECONDS_A_DAY.
Proof.
  intros H. induction n as [| n [IHv IHe]]; [cbn; split; [exact H | lia] |].
  change (Nat.iter (S n) nextDay d) with (nextDay (Nat.iter n nextDay d)).
  split.
  - apply nextDay_spec, IHv.
  - rewrite valueOf_nextDay by exact IHv. rewrite IHe. lia.
Qed.

(** Adding one hour, day or week to a valid date gives a valid date that
    lies exactly one unit length later. *)
Lemma add1_fixed_length (u : ManipulateType) (d : Dayjs) :
  u = Hour \/ u = Day \/ u = Week ->
  isValid d = true ->
  isValid (add1 u d) = true /\ valueOf (add1 u d) = valueOf d + unitLength u.
Proof.
  intros [-> | [-> | ->]] H; cbn [add1 unitLength].
  - destruct (Z.ltb_spec (hr d + 1) 24) as [Hlt | Hge].
    + apply isValid_spec in H. rewrite isValid_spec. unfold valueOf, dayNumber.
      cbn. unfold MILLISECONDS_A_HOUR. split; lia.
    + set (d0 := mk (yr d) (mon d) (dom d) 0 (mnt d) (sec d) (msec d)).
      assert (H0 : isValid d0 = true).
      { apply isValid_spec in H. apply isValid_spec. cbn. lia. }
      split; [apply nextDay_spec, H0 |].
      rewrite valueOf_nextDay by exact H0.
      apply isValid_spec in H. unfold valueOf, dayNumber, d0. cbn.
      unfold MILLISECONDS_A_DAY, MILLISECONDS_A_HOUR. lia.
  - split; [apply nextDay_spec, H | apply valueOf_nextDay, H].
  - destruct (iter_nextDay 7 d H) as [Hv He]. split; [exact Hv |].
    rewrite He. unfold MILLISECONDS_A_WEEK, MILLISECONDS_A_DAY. lia.
Qed.

(** A valid date lies within the period of its day, month or year: at or
    after the start of the period, before the start of the next one; the
    cursor of the upper row stays valid and at the start of a period, and
    each step moves it forward by at least a day. *)
Lemma startOf_valid (L : Locale) (u : ManipulateType) (d : Dayjs) :
  isPeriod u -> isValid d = true ->
  isValid (startOf L u d) = true
  /\ startOf L u (startOf L u d) = startOf L u d
  /\ valueOf (startOf L u d) <= valueOf d.
Proof.
  intros [-> | [-> | ->]] H; apply isValid_spec in H;
    rewrite isValid_spec; cbn [startOf].
  - unfold valueOf, dayNumber, MILLISECONDS_A_HOUR, MILLISECONDS_A_MINUTE. cbn.
    repeat split; first [reflexivity | lia].
  - pose proof (daysInMonth_bounds (yr d) (mon d)).
    unfold valueOf, dayNumber, MILLISECONDS_A_HOUR, MILLISECONDS_A_MINUTE,
      MILLISECONDS_A_DAY. cbn.
    repeat split; first [reflexivity | lia].
  - pose proof (daysBeforeMonth_bounds (yr d) (mon d) ltac:(lia)).
    unfold valueOf, dayNumber, MILLISECONDS_A_HOUR, MILLISECONDS_A_MINUTE,
      MILLISECONDS_A_DAY. cbn.
    change (daysBeforeMonth (yr d) 0) with 0.
    repeat split; first [reflexivity | lia].
Qed.

Lemma add1_period_step (L : Locale) (u : ManipulateType) (c : Dayjs) :
  isPeriod u -> isValid c = true -> startOf L u c = c ->
  isValid (add1 u c) = true
  /\ startOf L u (add1 u c) = add1 u c
  /\ valueOf c + MILLISECONDS_A_DAY <= valueOf (add1 u c).
Proof.
  intros [-> | [-> | ->]] H E; cbn [startOf] in E; cbn [add1 startOf].
  - destruct (nextDay_spec c H) as (Hv & Hn & Hh & Hm & Hs & Hms).
    split; [exact Hv |]. split.
    + assert (Hz : hr c = 0 /\ mnt c = 0 /\ sec c = 0 /\ msec c = 0)
        by (rewrite <- E; cbn; auto).
      destruct Hz as (Hz1 & Hz2 & Hz3 & Hz4).
      destruct (nextDay c) as [y m dd h mi s ms]. cbn in *. congruence.
    + rewrite valueOf_nextDay by exact H. lia.
  - apply isValid_spec in H. rewrite <- E in *. cbn in H. cbn.
    unfold addMonths. cbn.
    assert (Hc : mon c <= 10 \/ mon c = 11) by lia.
    destruct Hc as [Hc | Hc].
    + replace ((mon c + 1) / 12) with 0 by (Z.div_mod_to_equations; lia).
      replace ((mon c + 1) mod 12) with (mon c + 1) by (Z.div_mod_to_equations; lia).
      pose proof (daysInMonth_bounds (yr c + 0) (mon c + 1)).
      pose proof (daysInMonth_bounds (yr c) (mon c)).
      rewrite Z.min_l by lia. rewrite isValid_spec. cbn.
      unfold valueOf, dayNumber, MILLISECONDS_A_DAY. cbn.
      rewrite ?Z.add_0_r in *. rewrite daysBeforeMonth_succ by lia.
      repeat split; first [reflexivity | lia].
    + rewrite Hc. cbn.
      change ((11 + 1) / 12) with 1. change ((11 + 1) mod 12) with 0.
      change (Z.min 1 (daysInMonth (yr c + 1) 0)) with 1.
      rewrite isValid_spec. cbn.
      unfold valueOf, dayNumber, MILLISECONDS_A_DAY. cbn.
      rewrite dayFromYear_succ.
      pose proof (daysBeforeMonth_december (yr c)).
      change (daysBeforeMonth (yr c + 1) 0) with 0.
      change (daysInMonth (yr c + 1) 0) with 31.
      repeat split; try reflexivity; try lia. destruct (isLeapYear (yr c)); lia.
  - apply isValid_spec in H. rewrite <- E in *. cbn in H. cbn.
    unfold addYears. cbn.
    change (Z.min 1 (daysInMonth (yr c + 1) 0)) with 1.
    rewrite isValid_spec. cbn.
    unfold valueOf, dayNumber, MILLISECONDS_A_DAY. cbn.
    rewrite dayFromYear_succ.
    change (daysBeforeMonth (yr c + 1) 0) with 0.
    change (daysBeforeMonth (yr c) 0) with 0.
    change (daysInMonth (yr c + 1) 0) with 31.
    repeat split; try reflexivity; try lia. destruct (isLeapYear (yr c)); lia.
Qed.

Lemma before_next_period (L : Locale) (u : ManipulateType) (d : Dayjs) :
  isPeriod u -> isValid d = true ->
  valueOf d < valueOf (add1 u (startOf L u d)).
Proof.
  intros [-> | [-> | ->]] H; apply isValid_spec in H; cbn [startOf add1].
  - set (d0 := mk (yr d) (mon d) (dom d) 0 0 0 0).
    assert (H0 : isValid d0 = true) by (apply isValid_spec; cbn; lia).
    rewrite valueOf_nextDay by exact H0.
    unfold valueOf, dayNumber, d0, MILLISECONDS_A_HOUR, MILLISECONDS_A_MINUTE,
      MILLISECONDS_A_DAY. cbn. lia.
  - unfold addMonths. cbn.
    assert (Hc : mon d <= 10 \/ mon d = 11) by lia.
    destruct Hc as [Hc | Hc].
    + replace ((mon d + 1) / 12) with 0 by (Z.div_mod_to_equations; lia).
      replace ((mon d + 1) mod 12) with (mon d + 1) by (Z.div_mod_to_equations; lia).
      pose proof (daysInMonth_bounds (yr d + 0) (mon d + 1)).
      rewrite Z.min_l by lia.
      unfold valueOf, dayNumber, MILLISECONDS_A_HOUR, MILLISECONDS_A_MINUTE,
        MILLISECONDS_A_DAY. cbn.
      rewrite ?Z.add_0_r in *. rewrite daysBeforeMonth_succ by lia. lia.
    + rewrite Hc in *. cbn.
      change ((11 + 1) / 12) with 1. change ((11 + 1) mod 12) with 0.
      change (Z.min 1 (daysInMonth (yr d + 1) 0)) with 1.
      unfold valueOf, dayNumber, MILLISECONDS_A_HOUR, MILLISECONDS_A_MINUTE,
        MILLISECONDS_A_DAY. cbn.
      rewrite dayFromYear_succ.
      pose proof (daysBeforeMonth_december (yr d)).
      change (daysBeforeMonth (yr d + 1) 0) with 0.
      change (daysInMonth (yr d) 11) with 31 in *. rewrite ?Hc.
      destruct (isLeapYear (yr d)); lia.
  - unfold addYears. cbn.
    change (Z.min 1 (daysInMonth (yr d + 1) 0)) with 1.
    pose proof (daysBeforeMonth_bounds (yr d) (mon d) ltac:(lia)).
    unfold valueOf, dayNumber, MILLISECONDS_A_HOUR, MILLISECONDS_A_MINUTE,
      MILLISECONDS_A_DAY. cbn.
    rewrite dayFromYear_succ.
    change (daysBeforeMonth (yr d + 1) 0) with 0.
    pose proof (daysInMonth_bounds (yr d) (mon d)).
    destruct (isLeapYear (yr d)); lia.
Qed.

End Calendar.

(** ** Months *)

Section Months.

Import Dayjs.

Lemma monthIndex_split (d : Dayjs) :
  isValid d = true ->
  monthIndex d / 12 = yr d /\ monthIndex d mod 12 = mon d.
Proof.
  rewrite isValid_spec. intros (Hm & _). unfold monthIndex.
  Z.div_mod_to_equations. lia.
Qed.

(** The instant of a valid date, by the first day of its month. *)
Lemma valueOf_monthly (d : Dayjs) :
  isValid d = true ->
  valueOf d = firstOfMonth (monthIndex d) * MILLISECONDS_A_DAY + withinMonth d.
Proof.
  intros H. destruct (monthIndex_split d H) as [Ey Em].
  unfold firstOfMonth. rewrite Ey, Em.
  unfold valueOf, dayNumber, withinMonth, MILLISECONDS_A_DAY. lia.
Qed.

Lemma firstOfMonth_succ (i : Z) :
  firstOfMonth (i + 1) = firstOfMonth i + daysInMonth (i / 12) (i mod 12).
Proof.
  unfold firstOfMonth.
  assert (Hr : 0 <= i mod 12 < 12) by (apply Z.mod_pos_bound; lia).
  destruct (Z.le_gt_cases (i mod 12) 10) as [Hle | Hgt].
  - assert (E1 : (i + 1) / 12 = i / 12) by (Z.div_mod_to_equations; lia).
    assert (E2 : (i + 1) mod 12 = i mod 12 + 1) by (Z.div_mod_to_equations; lia).
    rewrite E1, E2. rewrite daysBeforeMonth_succ by lia. lia.
  - assert (E0 : i mod 12 = 11) by lia.
    assert (E1 : (i + 1) / 12 = i / 12 + 1) by (Z.div_mod_to_equations; lia).
    assert (E2 : (i + 1) mod 12 = 0) by (Z.div_mod_to_equations; lia).
    rewrite E1, E2, E0. rewrite dayFromYear_succ.
    pose proof (daysBeforeMonth_december (i / 12)).
    change (daysBeforeMonth (i / 12 + 1) 0) with 0.
    change (daysInMonth (i / 12) 11) with 31. lia.
Qed.

Lemma firstOfMonth_mono (i j : Z) :
  i <= j -> firstOfMonth i + 28 * (j - i) <= firstOfMonth j.
Proof.
  intros Hij. replace j with (i + Z.of_nat (Z.to_nat (j - i))) by lia.
  generalize (Z.to_nat (j - i)). intros n. induction n as [| n IH].
  - rewrite Z.add_0_r. lia.
  - rewrite Nat2Z.inj_succ.
    replace (i + Z.succ (Z.of_nat n)) with (i + Z.of_nat n + 1) by lia.
    rewrite firstOfMonth_succ.
    pose proof (daysInMonth_bounds ((i + Z.of_nat n) / 12) ((i + Z.of_nat n) mod 12)).
    lia.
Qed.

Lemma month_length (i : Z) :
  28 <= firstOfMonth (i + 1) - firstOfMonth i <= 31.
Proof.
  rewrite firstOfMonth_succ.
  pose proof (daysInMonth_bounds (i / 12) (i mod 12)). lia.
Qed.

Lemma withinMonth_bounds (d : Dayjs) :
  safeDay d -> 0 <= withinMonth d < 28 * MILLISECONDS_A_DAY.
Proof.
  intros [Hv Hd]. apply isValid_spec in Hv.
  unfold withinMonth, MILLISECONDS_A_DAY, MILLISECONDS_A_HOUR,
    MILLISECONDS_A_MINUTE. lia.
Qed.

(** Two dates on or before the 28th compare by their month first. *)
Lemma safe_order (a b : Dayjs) :
  safeDay a -> safeDay b ->
  (valueOf a < valueOf b <->
   monthIndex a < monthIndex b
   \/ (monthIndex a = monthIndex b /\ withinMonth a < withinMonth b)).
Proof.
  intros Ha Hb.
  pose proof (withinMonth_bounds a Ha). pose proof (withinMonth_bounds b Hb).
  rewrite (valueOf_monthly a) by apply Ha.
  rewrite (valueOf_monthly b) by apply Hb.
  unfold MILLISECONDS_A_DAY in *.
  destruct (Z.lt_trichotomy (monthIndex a) (monthIndex b)) as [Hlt | [Heq | Hgt]].
  - pose proof (firstOfMonth_mono (monthIndex a) (monthIndex b) ltac:(lia)). lia.
  - rewrite Heq. lia.
  - pose proof (firstOfMonth_mono (monthIndex b) (monthIndex a) ltac:(lia)). lia.
Qed.

(** Adding months to a date on or before the 28th moves its month and
    nothing else. *)
Lemma addMonths_safe (k : Z) (d : Dayjs) :
  safeDay d ->
  safeDay (addMonths k d)
  /\ monthIndex (addMonths k d) = monthIndex d + k
  /\ withinMonth (addMonths k d) = withinMonth d.
Proof.
  intros [Hv Hd]. apply isValid_spec in Hv. unfold addMonths.
  set (y := yr d + (mon d + k) / 12). set (m := (mon d + k) mod 12).
  pose proof (daysInMonth_bounds y m).
  rewrite Z.min_l by lia.
  assert (Hm : 0 <= m < 12) by (apply Z.mod_pos_bound; lia).
  split; [split; [apply isValid_spec; cbn; lia | cbn; lia] |].
  split.
  - unfold monthIndex, y, m. cbn. Z.div_mod_to_equations. lia.
  - reflexivity.
Qed.

Lemma valueOf_addMonths (k : Z) (d : Dayjs) :
  safeDay d ->
  valueOf (addMonths k d)
  = firstOfMonth (monthIndex d + k) * MILLISECONDS_A_DAY + withinMonth d.
Proof.
  intros H. destruct (addMonths_safe k d H) as ([Hv _] & Ei & Ew).
  rewrite valueOf_monthly by exact Hv. rewrite Ei, Ew. reflexivity.
Qed.

(** *** The fractional month difference, rounded up *)

Lemma Qceiling_opp_mixed (w p q : Z) :
  0 < q ->
  Qceiling (Qopp (inject_Z w + inject_Z p / inject_Z q)) = - w - p / q.
Proof.
  intros Hq. destruct q as [| q | q]; try lia.
  unfold Qceiling, Qfloor, Qdiv, Qmult, Qinv, Qopp, Qplus, inject_Z. cbn.
  rewrite !Pos.mul_1_l, Z.opp_involutive, !Z.mul_1_r.
  replace (w * Z.pos q + p) with (p + w * Z.pos q) by lia.
  rewrite Z.div_add by lia. lia.
Qed.

Lemma Qceiling_mixed (w p q : Z) :
  0 < q ->
  Qceiling (Qopp (Qopp (inject_Z w + inject_Z p / inject_Z q)))
  = w + ceilDiv p q.
Proof.
  intros Hq. destruct q as [| q | q]; try lia.
  unfold ceilDiv, Qceiling, Qfloor, Qdiv, Qmult, Qinv, Qopp, Qplus, inject_Z. cbn.
  rewrite !Pos.mul_1_l, Z.opp_involutive, !Z.mul_1_r.
  replace (- (w * Z.pos q + p)) with (- p + (- w) * Z.pos q) by lia.
  rewrite Z.div_add by lia. lia.
Qed.

(** The shape of [monthDiffBody] on dates on or before the 28th. *)
Lemma monthDiffBody_safe (x y : Dayjs) :
  safeDay x -> safeDay y ->
  exists q,
    28 * MILLISECONDS_A_DAY <= q
    /\ monthDiffBody x y
       = Qopp (inject_Z (monthIndex y - monthIndex x)
               + inject_Z (withinMonth y - withinMonth x) / inject_Z q)%Q.
Proof.
  intros Hx Hy. unfold monthDiffBody.
  replace ((yr y - yr x) * 12 + (mon y - mon x))
    with (monthIndex y - monthIndex x) by (unfold monthIndex; lia).
  set (W := monthIndex y - monthIndex x).
  rewrite !valueOf_addMonths by exact Hx.
  rewrite (valueOf_monthly y) by apply Hy.
  replace (monthIndex x + W) with (monthIndex y) by (unfold W; lia).
  replace (firstOfMonth (monthIndex y) * MILLISECONDS_A_DAY + withinMonth y
           - (firstOfMonth (monthIndex y) * MILLISECONDS_A_DAY + withinMonth x))
    with (withinMonth y - withinMonth x) by lia.
  destruct (withinMonth y - withinMonth x <? 0).
  - replace (monthIndex x + (W + -1)) with (monthIndex y - 1) by (unfold W; lia).
    pose proof (month_length (monthIndex y - 1)) as Hl.
    replace (monthIndex y - 1 + 1) with (monthIndex y) in Hl by lia.
    eexists. split; [| reflexivity]. unfold MILLISECONDS_A_DAY. lia.
  - replace (monthIndex x + (W + 1)) with (monthIndex y + 1) by (unfold W; lia).
    pose proof (month_length (monthIndex y)) as Hl.
    eexists. split; [| reflexivity]. unfold MILLISECONDS_A_DAY. lia.
Qed.

(** Between two dates on or before the 28th, the month difference rounded
    up counts the month steps from the first that do not pass the second. *)
Lemma unitsInPeriod_month (a b : Dayjs) :
  safeDay a -> safeDay b -> unitsInPeriod month a b = monthsBetween a b.
Proof.
  intros Ha Hb. unfold unitsInPeriod, diff, monthDiff, monthsBetween.
  pose proof (withinMonth_bounds a Ha) as Ba.
  pose proof (withinMonth_bounds b Hb) as Bb.
  destruct (Z.ltb_spec (dom b) (dom a)) as [Hdom | Hdom].
  - destruct (monthDiffBody_safe a b Ha Hb) as (q & Hq & ->).
    rewrite Qceiling_mixed by (unfold MILLISECONDS_A_DAY in *; lia).
    assert (Hlt : withinMonth b < withinMonth a).
    { destruct Ha as [Va _], Hb as [Vb _].
      apply isValid_spec in Va. apply isValid_spec in Vb.
      unfold withinMonth, MILLISECONDS_A_DAY, MILLISECONDS_A_HOUR,
        MILLISECONDS_A_MINUTE. lia. }
    destruct (Z.ltb_spec (withinMonth a) (withinMonth b)); [lia |].
    unfold ceilDiv, MILLISECONDS_A_DAY in *.
    assert (E : - (withinMonth b - withinMonth a) / q = 0)
      by (apply Z.div_small; lia).
    rewrite E. lia.
  - destruct (monthDiffBody_safe b a Hb Ha) as (q & Hq & ->).
    rewrite Qceiling_opp_mixed by (unfold MILLISECONDS_A_DAY in *; lia).
    unfold MILLISECONDS_A_DAY in *.
    destruct (Z.ltb_spec (withinMonth a) (withinMonth b)).
    + assert (E : (withinMonth a - withinMonth b) / q = -1).
      { Z.div_mod_to_equations. nia. }
      rewrite E. lia.
    + assert (E : (withinMonth a - withinMonth b) / q = 0)
        by (apply Z.div_small; lia).
      rewrite E. lia.
Qed.

Lemma monthsBetween_positive (a b : Dayjs) :
  safeDay a -> safeDay b -> valueOf a < valueOf b -> 1 <= monthsBetween a b.
Proof.
  intros Ha Hb Hlt. apply (safe_order a b Ha Hb) in Hlt. unfold monthsBetween.
  destruct (Z.ltb_spec (withinMonth a) (withinMonth b)); lia.
Qed.

Lemma monthsBetween_nonpositive (a b : Dayjs) :
  safeDay a -> safeDay b -> valueOf b <= valueOf a -> monthsBetween a b <= 0.
Proof.
  intros Ha Hb Hge. unfold monthsBetween.
  assert (Hn : ~ valueOf a < valueOf b) by lia.
  rewrite (safe_order a b Ha Hb) in Hn.
  destruct (Z.ltb_spec (withinMonth a) (withinMonth b)); lia.
Qed.

(** Dates on or before the 28th with the same instant count alike. *)
Lemma monthsBetween_same_instant (a b b' : Dayjs) :
  safeDay b -> safeDay b' -> valueOf b = valueOf b' ->
  monthsBetween a b = monthsBetween a b'.
Proof.
  intros Hb Hb' E.
  assert (H1 : ~ valueOf b < valueOf b') by lia.
  assert (H2 : ~ valueOf b' < valueOf b) by lia.
  rewrite (safe_order b b' Hb Hb') in H1.
  rewrite (safe_order b' b Hb' Hb) in H2.
  unfold monthsBetween.
  assert (Ei : monthIndex b = monthIndex b') by lia.
  assert (Ew : withinMonth b = withinMonth b') by lia.
  rewrite Ei, Ew. reflexivity.
Qed.

(** The first instant of a year is on or before the 28th, at the very
    start of its month. *)
Lemma year_start_safe (L : Locale) (c : Dayjs) :
  isValid c = true -> startOf L Year c = c ->
  safeDay c /\ withinMonth c = 0.
Proof.
  intros Hv E. cbn [startOf] in E. rewrite <- E. split.
  - split; [| cbn; lia].
    apply isValid_spec. apply isValid_spec in Hv. cbn.
    change (daysInMonth (yr c) 0) with 31. lia.
  - reflexivity.
Qed.

End Months.

(** ** The precision/zoom state machine *)

Section StateMachine.

Lemma hierarchy_next_defined (p : TimeUnit) :
  indexOf precisionHierarchy p < Z.of_nat (length precisionHierarchy) - 1 ->
  is_Some (atIndex precisionHierarchy (indexOf precisionHierarchy p + 1)).
Proof. destruct p; vm_compute; intros H; first [discriminate | eexists; reflexivity]. Qed.

Lemma hierarchy_previous_defined (p : TimeUnit) :
  0 < indexOf precisionHierarchy p ->
  is_Some (atIndex precisionHierarchy (indexOf precisionHierarchy p - 1)).
Proof. destruct p; vm_compute; intros H; first [discriminate | eexists; reflexivity]. Qed.

(** The two neighbour functions, tabulated. *)
Lemma getNextPrecision_table (p : TimeUnit) :
  getNextPrecision p =
  match p with
  | hour => day | day => week | week => month | month => month
  | date => hour
  end.
Proof. destruct p; reflexivity. Qed.

Lemma getPreviousPrecision_table (floor p : TimeUnit) :
  getPreviousPrecision floor p =
  match p, floor with
  | day, (hour | date) => hour
  | week, (hour | day | date) => day
  | month, (hour | day | week | date) => week
  | _, _ => p
  end.
Proof. destruct floor, p; reflexivity. Qed.

Lemma adjust_config (b : bool) (inst : Instance) :
  config (adjustZoomAndPrecision b inst) = config inst.
Proof.
  unfold adjustZoomAndPrecision.
  destruct b; repeat (case_match; try reflexivity).
Qed.

Lemma adjust_zoom_bounds (b : bool) (inst : Instance) :
  MIN_ZOOM <= zoomLevel inst <= MAX_ZOOM ->
  MIN_ZOOM <= zoomLevel (adjustZoomAndPrecision b inst) <= MAX_ZOOM.
Proof.
  unfold adjustZoomAndPrecision, MIN_ZOOM, MAX_ZOOM. intros H.
  destruct b.
  - destruct (Z.eqb_spec (zoomLevel inst) 10).
    + case_decide; cbn; lia.
    + cbn; lia.
  - destruct (Z.eqb_spec (zoomLevel inst) 1).
    + case_decide; cbn; lia.
    + cbn; lia.
Qed.

Lemma step_zoom_bounds (inst : Instance) (e : Event) :
  MIN_ZOOM <= zoomLevel inst <= MAX_ZOOM ->
  MIN_ZOOM <= zoomLevel (step inst e) <= MAX_ZOOM.
Proof.
  destruct e as [b | p]; cbn.
  - apply adjust_zoom_bounds.
  - unfold setConfigPrecision. case_decide; cbn; [tauto |].
    unfold MIN_ZOOM, DEFAULT_ZOOM, MAX_ZOOM. lia.
Qed.

(** An invariant of [step] that holds initially holds after any run. *)
Lemma run_invariant (P : Instance -> Prop) :
  (forall inst e, P inst -> P (step inst e)) ->
  forall es inst, P inst -> P (run inst es).
Proof.
  intros Hstep es. induction es as [| e es IH]; intros inst HP; cbn.
  - exact HP.
  - apply IH, Hstep, HP.
Qed.

(** With a floor taken from the hierarchy, zooming keeps the internal
    precision at or above the floor. *)
Lemma floor_respected_in_hierarchy (cfg : GGanttChartConfig) (bs : list bool) :
  precision cfg ∈ precisionHierarchy ->
  let inst := run (useTimeaxisUnits cfg) (map Zoom bs) in
  ~ strictlyFiner (internalPrecision inst) (precision cfg).
Proof.
  intros Hin.
  assert (Hnd : precision cfg <> date).
  { intros E. rewrite E in Hin. revert Hin. unfold precisionHierarchy.
    rewrite !elem_of_cons, elem_of_nil. intuition discriminate. }
  clear Hin.
  set (P := fun inst : Instance =>
              config inst = cfg /\ (internalPrecision inst <> date) /\
              (fineness (precision cfg) <= fineness (internalPrecision inst))).
  assert (Hrun : forall bs inst, P inst -> P (run inst (map Zoom bs))).
  { clear bs. intros bs. induction bs as [| b bs IH]; intros inst HP; cbn.
    - exact HP.
    - apply IH. destruct HP as (Hc & Hd & Hf). split.
      + rewrite adjust_config. exact Hc.
      + unfold adjustZoomAndPrecision. rewrite Hc.
        destruct b.
        * destruct (zoomLevel inst =? MAX_ZOOM); [| split; assumption].
          case_decide; [| split; assumption]. cbn.
          rewrite getPreviousPrecision_table.
          revert Hnd Hd Hf.
          destruct (precision cfg), (internalPrecision inst); cbn;
            intros; split; first [congruence | lia].
        * destruct (zoomLevel inst =? MIN_ZOOM); [| split; assumption].
          case_decide; [| split; assumption]. cbn.
          rewrite getNextPrecision_table.
          revert Hnd Hd Hf.
          destruct (precision cfg), (internalPrecision inst); cbn;
            intros; split; first [congruence | lia]. }
  cbn zeta. unfold strictlyFiner.
  destruct (Hrun bs (useTimeaxisUnits cfg)) as (_ & _ & Hf).
  - repeat split; [exact Hnd | cbn; lia].
  - lia.
Qed.

(** C3. At zoom [MIN_ZOOM], zooming out from [day] moves to [week] with the
    zoom at [MAX_ZOOM]; zooming out from [month] changes nothing. *)
Theorem zoom_out_at_min_zoom
    (cfg : GGanttChartConfig) (cl cu : gmap jsstring CacheEntry) :
  let at_ p z :=
    {| config := cfg; internalPrecision := p; zoomLevel := z;
       cacheLower := cl; cacheUpper := cu |} in
  MIN_ZOOM = 1 /\ MAX_ZOOM = 10
  /\ adjustZoomAndPrecision false (at_ day MIN_ZOOM) = at_ week MAX_ZOOM
  /\ adjustZoomAndPrecision false (at_ month MIN_ZOOM) = at_ month MIN_ZOOM.
Proof. cbn zeta. repeat split; reflexivity. Qed.

(** C10. [date] is not in the hierarchy, its index is -1, so the "next
    coarser" precision computed for it is the first element, [hour]: at
    zoom [MIN_ZOOM], zooming out from [date] lands on [hour] with the zoom at
    [MAX_ZOOM]. *)
Theorem zoom_out_from_date
    (cfg : GGanttChartConfig) (cl cu : gmap jsstring CacheEntry) :
  let at_ p z :=
    {| config := cfg; internalPrecision := p; zoomLevel := z;
       cacheLower := cl; cacheUpper := cu |} in
  (date ∉ precisionHierarchy)
  /\ indexOf precisionHierarchy date = -1
  /\ getNextPrecision date = hour
  /\ adjustZoomAndPrecision false (at_ date MIN_ZOOM) = at_ hour MAX_ZOOM.
Proof.
  cbn zeta. split; [| repeat split; reflexivity].
  unfold precisionHierarchy. rewrite !elem_of_cons, elem_of_nil.
  intuition discriminate.
Qed.

(** C9. From a fresh instance (zoom [DEFAULT_ZOOM] = 3) the zoom level stays
    within [MIN_ZOOM] = 1 and [MAX_ZOOM] = 10 along every sequence of zoom
    calls and changes of the configured precision; such a change puts it
    back to [DEFAULT_ZOOM]. *)
Theorem zoom_level_bounded (cfg : GGanttChartConfig) (es : list Event) :
  zoomLevel (useTimeaxisUnits cfg) = 3
  /\ 1 <= zoomLevel (run (useTimeaxisUnits cfg) es) <= 10
  /\ (forall p, p <> precision (config (run (useTimeaxisUnits cfg) es)) ->
        zoomLevel (run (useTimeaxisUnits cfg) (es ++ [ConfigPrecision p])) = 3).
Proof.
  split; [reflexivity |]. split.
  - apply (run_invariant (fun i => MIN_ZOOM <= zoomLevel i <= MAX_ZOOM)).
    + intros inst e. apply step_zoom_bounds.
    + cbn. unfold MIN_ZOOM, MAX_ZOOM, DEFAULT_ZOOM. lia.
  - intros p Hp. unfold run. rewrite fold_left_app. cbn.
    unfold setConfigPrecision. case_decide; [contradiction | reflexivity].
Qed.

(** C4, at the input where it fails. With the floor configured to [date],
    three zoom-out calls from the fresh instance reach the internal precision
    [hour], which is strictly finer than the floor. *)
Theorem floor_date_is_crossed
    (hh em : bool) (loc : Dayjs.Locale) (cs ce : Dayjs) :
  let cfg :=
    {| precision := date; holidayHighlight := hh; locale := loc;
       enableMinutes := em; chartStart := cs; chartEnd := ce |} in
  let reached := run (useTimeaxisUnits cfg) [Zoom false; Zoom false; Zoom false] in
  internalPrecision reached = hour
  /\ zoomLevel reached = MAX_ZOOM
  /\ strictlyFiner (internalPrecision reached) (precision cfg).
Proof. cbn zeta. unfold strictlyFiner. repeat split; reflexivity. Qed.

End StateMachine.

(** ** The windowed cache *)

Section Cache.

Implicit Types (m : gmap jsstring CacheEntry) (key : jsstring) (now : Z).

(** C5. Reading a key at clock reading [now]: an entry older than the
    time-to-live (300000 ms) is a miss and is deleted, the other keys being
    left as they are; an entry within the time-to-live is returned as stored
    and the map is unchanged; an absent key is a miss and the map is
    unchanged. *)
Theorem getFromCache_expiry m key now :
  CACHE_TTL = 300000
  /\ (forall entry, m !! key = Some entry -> now - timestamp entry > CACHE_TTL ->
        (getFromCache m key now).1 = None
        /\ (getFromCache m key now).2 !! key = None
        /\ (forall k, k <> key -> (getFromCache m key now).2 !! k = m !! k))
  /\ (forall entry, m !! key = Some entry -> now - timestamp entry <= CACHE_TTL ->
        getFromCache m key now = (Some (units entry), m))
  /\ (m !! key = None -> getFromCache m key now = (None, m)).
Proof.
  split; [reflexivity |]. unfold getFromCache. repeat split.
  - rewrite H. destruct (Z.ltb_spec CACHE_TTL (now - timestamp entry)); [reflexivity | lia].
  - rewrite H. destruct (Z.ltb_spec CACHE_TTL (now - timestamp entry)); [| lia].
    cbn. apply lookup_delete_eq.
  - intros k Hk. rewrite H.
    destruct (Z.ltb_spec CACHE_TTL (now - timestamp entry)); [| lia].
    cbn. apply lookup_delete_ne. congruence.
  - intros entry H Hage. rewrite H.
    destruct (Z.ltb_spec CACHE_TTL (now - timestamp entry)); [lia | reflexivity].
  - intros H. rewrite H. reflexivity.
Qed.

End Cache.

(** ** The minute-step calculator *)

Section MinuteSteps.

Lemma minuteLabels_minutesEvery (step : Z) :
  step ∈ [1; 5; 10; 15; 30] -> minuteLabels step = minutesEvery step.
Proof.
  rewrite !elem_of_cons, elem_of_nil.
  intros [-> | [-> | [-> | [-> | [-> | []]]]]]; vm_compute; reflexivity.
Qed.

(** C7. The minute steps are empty unless minutes are enabled and the
    precision is [hour]; otherwise the number of 16px divisions of the cell
    selects the step (60 and more: 1, 12 and more: 5, 6 and more: 10, 4 and
    more: 15, 2 and more: 30, fewer: the single label "00") and the result is
    the ascending two-digit labels of the minutes of an hour that are
    multiples of the step; a 240px cell gives the twelve labels "00", "05",
    ..., "55". *)
Theorem calculateMinuteSteps_table (inst : Instance) :
  let possibleDivisions := unitWidth inst / 16 in
  let steps := calculateMinuteSteps inst in
  (enableMinutes (config inst) = false \/ internalPrecision inst <> hour ->
     steps = [])
  /\ (enableMinutes (config inst) = true -> internalPrecision inst = hour ->
        (60 <= possibleDivisions -> steps = minutesEvery 1)
        /\ (12 <= possibleDivisions < 60 -> steps = minutesEvery 5)
        /\ (6 <= possibleDivisions < 12 -> steps = minutesEvery 10)
        /\ (4 <= possibleDivisions < 6 -> steps = minutesEvery 15)
        /\ (2 <= possibleDivisions < 4 -> steps = minutesEvery 30)
        /\ (possibleDivisions < 2 -> steps = [str "00"])
        /\ (unitWidth inst = 240 ->
              steps = map str ["00"; "05"; "10"; "15"; "20"; "25";
                               "30"; "35"; "40"; "45"; "50"; "55"]%string)).
Proof.
  cbn zeta. unfold calculateMinuteSteps. split.
  - intros [-> | Hp]; [reflexivity |].
    rewrite bool_decide_eq_false_2 by exact Hp.
    rewrite orb_true_r. reflexivity.
  - intros -> ->. cbn [negb orb]. rewrite bool_decide_eq_true_2 by reflexivity.
    cbn [negb].
    assert (E : forall s, s ∈ [1; 5; 10; 15; 30] -> minuteLabels s = minutesEvery s)
      by apply minuteLabels_minutesEvery.
    repeat match goal with |- _ /\ _ => split end;
      intros H; try (rewrite H; reflexivity);
      repeat (match goal with
              | |- context [?a <=? ?b] => destruct (Z.leb_spec a b); try lia
              end);
      try (rewrite E by (rewrite !elem_of_cons; tauto); reflexivity);
      reflexivity.
Qed.

End MinuteSteps.

(** ** Label capitalisation *)

Section Capitalisation.

Context (U : Unicode).

Lemma splitWords_concat (s : jsstring) : concat (splitWords s) = s.
Proof.
  induction s as [| c s IH]; [reflexivity |].
  cbn [splitWords]. destruct (isDotComma c).
  - cbn. rewrite IH. reflexivity.
  - destruct (isSpace c).
    + destruct (splitWords s) as [| [| a w] [| [| c2 ws] rest]] eqn:E;
        cbn in *; try (rewrite <- IH; reflexivity).
      destruct (isSpace c2); cbn; rewrite <- IH; reflexivity.
    + destruct (splitWords s) as [| w rest]; cbn in *; rewrite <- IH; reflexivity.
Qed.

Lemma splitWords_pieces (s : jsstring) : Pieces (splitWords s).
Proof.
  induction s as [| c s IH]; [constructor; constructor |].
  cbn [splitWords]. destruct (isDotComma c) eqn:Hdc.
  - apply pieces_cons; [constructor | | exact IH].
    right. unfold isDotComma in Hdc.
    apply orb_true_iff in Hdc as [H | H]; apply Z.eqb_eq in H;
      [left | right]; f_equal; lia.
  - destruct (isSpace c) eqn:Hsp.
    + assert (Hone : isSeparator [c]).
      { left. split; [discriminate | repeat constructor; exact Hsp]. }
      inversion IH as [w Hw E | w sep rest Hw Hsep Hrest E].
      * destruct w;
          (apply pieces_cons; [constructor | exact Hone | constructor; exact Hw]).
      * destruct w as [| a w'].
        2:{ apply pieces_cons; [constructor | exact Hone |].
            apply pieces_cons; assumption. }
        destruct sep as [| c2 ws].
        { apply pieces_cons; [constructor | exact Hone |].
          apply pieces_cons; assumption. }
        destruct (isSpace c2) eqn:Hc2.
        -- apply pieces_cons; [constructor | | exact Hrest].
           left. split; [discriminate |].
           destruct Hsep as [[_ Hall] | [Hd | Hd]].
           ++ constructor; assumption.
           ++ inversion Hd; subst. discriminate Hc2.
           ++ inversion Hd; subst. discriminate Hc2.
        -- apply pieces_cons; [constructor | exact Hone |].
           apply pieces_cons; assumption.
    + inversion IH as [w Hw E | w sep rest Hw Hsep Hrest E].
      * constructor. constructor; [split; assumption | exact Hw].
      * apply pieces_cons; [| assumption | assumption].
        constructor; [split; assumption | exact Hw].
Qed.

Lemma startsWithLetter_nonempty (w : jsstring) :
  startsWithLetter U w = true -> w <> [].
Proof. intros H ->. discriminate H. Qed.

Lemma capitalize_stable_fragment (w : jsstring) :
  startsWithLetter U w = true -> normalizeNFD U w = w ->
  capitalizeString U w = capitalizeFirstOnly U w.
Proof.
  intros Hl Hn. unfold capitalizeString, capitalizeFirstOnly, replaceFirstLetter.
  destruct w; [reflexivity |]. rewrite Hn. reflexivity.
Qed.

Lemma capitalizeFirstOnly_other (w : jsstring) :
  startsWithLetter U w = false -> capitalizeFirstOnly U w = w.
Proof.
  unfold startsWithLetter, capitalizeFirstOnly.
  destruct (firstCodePoint w) as [[cp n] |]; [| reflexivity].
  intros ->. reflexivity.
Qed.

Lemma firstCodePoint_plain (c : char) (w : jsstring) :
  (c < 55296)%N \/ (56319 < c)%N ->
  firstCodePoint (c :: w) = Some (c, 1%nat).
Proof.
  intros H. cbn [firstCodePoint].
  destruct (N.leb_spec 55296 c), (N.leb_spec c 56319); cbn [andb];
    try reflexivity; lia.
Qed.

Lemma boundary_not_surrogate (c : char) :
  isSpace c || isDotComma c = true -> (c < 55296)%N \/ (56319 < c)%N.
Proof.
  unfold isSpace, isDotComma. cbn zeta.
  rewrite !orb_true_iff, !andb_true_iff, !Z.leb_le, !Z.eqb_eq. lia.
Qed.

(** A separator does not start with a letter. *)
Lemma separator_not_letter (sep : jsstring) :
  BoundariesAreNotLetters U -> isSeparator sep ->
  startsWithLetter U sep = false.
Proof.
  intros HU Hsep.
  assert (Hc : exists c r, sep = c :: r /\ isSpace c || isDotComma c = true).
  { destruct Hsep as [[Hne Hall] | [-> | ->]].
    - destruct sep as [| c r]; [congruence |]. exists c, r.
      inversion Hall; subst. split; [reflexivity |].
      apply orb_true_iff. left. assumption.
    - eexists _, _. split; reflexivity.
    - eexists _, _. split; reflexivity. }
  destruct Hc as (c & r & -> & Hc).
  unfold startsWithLetter.
  rewrite (firstCodePoint_plain c r (boundary_not_surrogate c Hc)).
  apply HU, Hc.
Qed.

Lemma capitalizedWord_other (w : jsstring) :
  startsWithLetter U w = false -> capitalizedWord U w = w.
Proof. intros H. unfold capitalizedWord. rewrite H. reflexivity. Qed.

Lemma capitalizedWord_capitalizeString (w : jsstring) :
  (if startsWithLetter U w then capitalizeString U w else w)
  = capitalizedWord U w.
Proof.
  unfold capitalizedWord.
  destruct (startsWithLetter U w) eqn:Hl; [| reflexivity].
  unfold capitalizeString. destruct w; [discriminate Hl | reflexivity].
Qed.

Lemma rebuild_pieces (fragments : list jsstring) :
  BoundariesAreNotLetters U -> Pieces fragments ->
  map (capitalizedWord U) fragments = rebuild U fragments.
Proof.
  intros HU H. induction H as [w Hw | w sep rest Hw Hsep Hrest IH];
    [reflexivity |].
  cbn [map rebuild]. rewrite IH.
  rewrite (capitalizedWord_other sep (separator_not_letter sep HU Hsep)).
  reflexivity.
Qed.

Lemma fragments_within (s w : jsstring) (P : char -> Prop) :
  Forall P s -> In w (splitWords s) -> Forall P w.
Proof.
  intros Hs Hw. rewrite List.Forall_forall in *. intros c Hc. apply Hs.
  rewrite <- (splitWords_concat s). apply in_concat. eauto.
Qed.

End Capitalisation.

Lemma latin1_boundaries_not_letters : BoundariesAreNotLetters Latin1.tables.
Proof.
  intros c. cbn. unfold isSpace, isDotComma, Latin1.letter. cbn zeta.
  intros H. apply not_true_iff_false. revert H.
  rewrite !orb_true_iff, !andb_true_iff, !Z.leb_le, !Z.eqb_eq. lia.
Qed.

Lemma latin1_ascii_conformant : AsciiConformant Latin1.tables.
Proof.
  split; cbn.
  - intros c Hc. unfold Latin1.letter, isAsciiLetter.
    destruct (N.leb_spec 65 c), (N.leb_spec c 90), (N.leb_spec 97 c),
      (N.leb_spec c 122);
      repeat match goal with
             | |- context [?a <=? ?b] => destruct (Z.leb_spec a b); try lia
             | |- context [?a =? ?b] => destruct (Z.eqb_spec a b); try lia
             end; reflexivity.
  - intros s Hs. unfold Latin1.nfd. induction Hs as [| c s Hc Hs IH]; [reflexivity |].
    cbn [map concat]. rewrite IH.
    assert (E : Latin1.decompose c = [c]); [| rewrite E; reflexivity].
    unfold Latin1.decompose.
    destruct (Z.leb_spec 224 (Z.of_N c)); [lia |].
    destruct (Z.of_N c) as [| p | p] eqn:Ez; try reflexivity.
    assert (Hp : (p < 128)%positive) by lia.
    repeat (destruct p as [p | p |]; try reflexivity; try lia).
  - intros c Hc. unfold Latin1.upper, Latin1.upper1. cbn [map concat].
    destruct (Z.leb_spec 97 (Z.of_N c)); [| lia].
    destruct (Z.leb_spec (Z.of_N c) 122); [| lia].
    cbn. f_equal. lia.
Qed.

(** C6, as the code has it. The fragments of [split] concatenate to the
    input and alternate between words without boundary characters and
    separators (a run of white space, a period or a comma). The result is the
    concatenation, in order, of what becomes of each fragment; white space,
    periods and commas not being letters, every separator is copied as it is
    and the result is the words capitalised with the separators of the input
    between them. A fragment that does not start with a letter is kept; a
    fragment that starts with a letter is replaced by its NFD form with the
    first letter in upper case, so that a fragment already in NFD form keeps
    every code unit after its first letter, and where all letter-leading
    fragments are in NFD form (as in every ASCII string, with the standard
    tables) nothing but the first letter of each changes. "dicembre 2024"
    gives "Dicembre 2024" and "lun. 25" gives "Lun. 25". *)
Theorem capitalizeWords_fragments (U : Unicode) (s : jsstring) :
  let fragments := splitWords s in
  concat fragments = s
  /\ Pieces fragments
  /\ capitalizeWords U s = concat (map (capitalizedWord U) fragments)
  /\ (BoundariesAreNotLetters U ->
      (forall sep, isSeparator sep -> capitalizedWord U sep = sep)
      /\ capitalizeWords U s = concat (rebuild U fragments))
  /\ (forall w, startsWithLetter U w = false -> capitalizedWord U w = w)
  /\ (forall w cp n,
        firstCodePoint w = Some (cp, n) -> isLetter U cp = true ->
        normalizeNFD U w = w ->
        capitalizedWord U w = toLocaleUpperCase U (take n w) ++ drop n w)
  /\ ((forall w, w ∈ fragments -> startsWithLetter U w = true ->
                 normalizeNFD U w = w) ->
       capitalizeWords U s = capitalizeWordsAsSpecified U s)
  /\ (AsciiConformant U -> Forall (fun c => (c < 128)%N) s ->
       capitalizeWords U s = capitalizeWordsAsSpecified U s)
  /\ (AsciiConformant U ->
       capitalizeWords U (str "dicembre 2024") = str "Dicembre 2024"
       /\ capitalizeWords U (str "lun. 25") = str "Lun. 25").
Proof.
  cbn zeta. split; [apply splitWords_concat |].
  split; [apply splitWords_pieces |].
  assert (Hmap : capitalizeWords U s
                 = concat (map (capitalizedWord U) (splitWords s))).
  { unfold capitalizeWords. f_equal. apply map_ext.
    apply capitalizedWord_capitalizeString. }
  assert (Hstable : (forall w, In w (splitWords s) ->
                       startsWithLetter U w = true -> normalizeNFD U w = w) ->
                    capitalizeWords U s = capitalizeWordsAsSpecified U s).
  { intros Hst. unfold capitalizeWords, capitalizeWordsAsSpecified.
    f_equal. apply map_ext_in. intros w Hw.
    destruct (startsWithLetter U w) eqn:Hl.
    - apply capitalize_stable_fragment; [exact Hl | apply Hst; assumption].
    - symmetry. apply capitalizeFirstOnly_other. exact Hl. }
  split; [exact Hmap |].
  split.
  { intros HU. split.
    - intros sep Hsep. apply capitalizedWord_other.
      apply separator_not_letter; assumption.
    - rewrite Hmap. f_equal. apply rebuild_pieces; [exact HU |].
      apply splitWords_pieces. }
  split; [apply capitalizedWord_other |].
  split.
  { intros w cp n Hcp Hl Hn. unfold capitalizedWord, startsWithLetter.
    rewrite Hcp, Hl, Hn. unfold capitalizeFirstOnly. rewrite Hcp, Hl.
    reflexivity. }
  split.
  { intros Hst. apply Hstable. intros w Hw. apply Hst.
    apply list_elem_of_In. exact Hw. }
  split.
  { intros HA Hs. apply Hstable. intros w Hw _.
    apply (ascii_nfd U HA). apply (fragments_within s w _ Hs Hw). }
  intros [Hletter Hnfd Hupper].
  unfold capitalizeWords.
  assert (Hl : forall c r, (c < 128)%N ->
            startsWithLetter U (c :: r) = isAsciiLetter c).
  { intros c r Hc. unfold startsWithLetter, firstCodePoint.
    destruct (N.leb_spec 55296 c); [lia |]. cbn. apply Hletter, Hc. }
  assert (Hcap : forall c r, (97 <= c <= 122)%N ->
            Forall (fun c => (c < 128)%N) r ->
            capitalizeString U (c :: r) = (c - 32)%N :: r).
  { intros c r Hc Hr. unfold capitalizeString.
    rewrite Hnfd by (constructor; [lia | exact Hr]).
    unfold replaceFirstLetter, firstCodePoint.
    destruct (N.leb_spec 55296 c); [lia |]. cbn [andb].
    rewrite Hletter by lia. unfold isAsciiLetter.
    destruct (N.leb_spec 97 c), (N.leb_spec c 122); try lia.
    rewrite orb_true_r. cbn [take drop]. rewrite Hupper by lia. reflexivity. }
  split.
  - change (splitWords (str "dicembre 2024"))
      with [str "dicembre"; str " "; str "2024"].
    cbn [map]. change (str "dicembre") with (100%N :: str "icembre").
    change (str " ") with (32%N :: []). change (str "2024") with (50%N :: str "024").
    rewrite !Hl by reflexivity. cbn [isAsciiLetter]. 
    rewrite Hcap; [reflexivity | lia | repeat constructor].
  - change (splitWords (str "lun. 25"))
      with [str "lun"; str "."; []; str " "; str "25"].
    cbn [map]. change (str "lun") with (108%N :: str "un").
    change (str " ") with (32%N :: []). change (str ".") with (46%N :: []).
    change (str "25") with (50%N :: str "5").
    rewrite !Hl by reflexivity.
    replace (startsWithLetter U []) with false by reflexivity.
    rewrite Hcap; [reflexivity | lia | repeat constructor].
Qed.

Lemma capitalizeWords_fragments_witness :
  (capitalizeWords Latin1.tables (str "dicembre 2024") = str "Dicembre 2024"
   /\ capitalizeWords Latin1.tables (str "lun. 25") = str "Lun. 25")
  /\ capitalizeWords Latin1.tables (str "lun. 25")
     = concat (rebuild Latin1.tables (splitWords (str "lun. 25"))).
Proof.
  destruct (capitalizeWords_fragments Latin1.tables (str "lun. 25"))
    as (_ & _ & _ & Hkept & _ & _ & _ & _ & Hex).
  split; [exact (Hex latin1_ascii_conformant) |].
  exact (proj2 (Hkept latin1_boundaries_not_letters)).
Defined.

(** C6 as stated fails: in "août" the letter-leading fragment is replaced
    by its canonical decomposition, so the precomposed "û" after the first
    letter comes out as "u" followed by a combining circumflex. *)
Lemma capitalizeWords_decomposes_later_letters :
  let aout := [97; 111; 251; 116]%N in
  capitalizeWords Latin1.tables aout = [65; 111; 117; 770; 116]%N
  /\ capitalizeWordsAsSpecified Latin1.tables aout = [65; 111; 251; 116]%N
  /\ capitalizeWords Latin1.tables aout
     <> capitalizeWordsAsSpecified Latin1.tables aout.
Proof. cbn zeta. repeat split. discriminate. Qed.

(** ** The unit partitioner *)

Section PartitionerProperties.

Import Dayjs.

Context (U : Unicode) (getHolidayInfo : Z -> option HolidayInfo).

(** *** Pixel widths *)

Lemma readDigits_uintDigits (u : Decimal.uint) :
  readDigits (uintDigits u ++ str "px") = (u, str "px").
Proof.
  induction u as [| u IH | u IH | u IH | u IH | u IH | u IH | u IH | u IH
                  | u IH | u IH ];
    [reflexivity | ..];
    cbn [uintDigits app readDigits]; rewrite IH; reflexivity.
Qed.

Lemma uintDigits_head (u : Decimal.uint) :
  u <> Decimal.Nil -> exists c r, uintDigits u = c :: r /\ c <> 45%N.
Proof.
  destruct u; [congruence | ..]; intros _; eexists _, _;
    (split; [reflexivity | discriminate]).
Qed.

Lemma pxValue_of_digits (u : Decimal.uint) :
  u <> Decimal.Nil ->
  pxValue (uintDigits u ++ str "px") = Some (Z.of_N (N.of_uint u)).
Proof.
  intros Hu. destruct (uintDigits_head u Hu) as (c & r & E & Hc).
  unfold pxValue. rewrite E. cbn [app].
  rewrite (proj2 (N.eqb_neq c 45)) by exact Hc.
  change (c :: r ++ str "px") with ((c :: r) ++ str "px"). rewrite <- E.
  unfold pxMagnitude. rewrite readDigits_uintDigits.
  destruct u; [congruence | ..]; rewrite decide_True by reflexivity; reflexivity.
Qed.

(** A positive width reads back from its rendering. *)
Lemma pxValue_px (n : Z) : 0 < n -> pxValue (px n) = Some n.
Proof.
  intros Hn. destruct n as [| p | p]; try lia.
  unfold px, numberToString. cbn [Z.to_int].
  rewrite pxValue_of_digits by apply DecimalPos.Unsigned.to_uint_nonnil.
  unfold N.of_uint. rewrite DecimalPos.Unsigned.of_to. reflexivity.
Qed.

(** *** The loops and their skeletons *)

Lemma lowerLoop_cursors (fuel : nat) (inst : Instance) (cur : Dayjs) :
  lowerLoop U getHolidayInfo fuel inst cur =
  map (fun d => createTimeaxisUnit U getHolidayInfo (config inst) d
                  (getDisplayFormat (internalPrecision inst))
                  (px (unitWidth inst)))
    <$> lowerCursors fuel (chartEnd (config inst))
          (getDayjsUnit (internalPrecision inst)) cur.
Proof.
  revert cur. induction fuel as [| fuel IH]; intros cur;
    cbn [lowerLoop lowerCursors];
    destruct (isBefore cur (chartEnd (config inst))); try reflexivity.
  rewrite IH. destruct (lowerCursors _ _ _ _); reflexivity.
Qed.

Lemma upperLoop_cells (fuel : nat) (inst : Instance) (cur : Dayjs) :
  upperLoop U getHolidayInfo fuel inst cur =
  map (fun c => createTimeaxisUnit U getHolidayInfo (config inst) c.1
                  (getDisplayFormat (upperPrecision inst)) (px c.2))
    <$> upperCells fuel (chartStart (config inst)) (chartEnd (config inst))
          (internalPrecision inst) (getDayjsUnit (upperPrecision inst))
          (unitWidth inst) cur.
Proof.
  revert cur. induction fuel as [| fuel IH]; intros cur;
    cbn [upperLoop upperCells];
    destruct (isBefore cur (chartEnd (config inst))); try reflexivity.
  cbn zeta. rewrite IH.
  destruct (0 <? _); [| reflexivity].
  destruct (upperCells _ _ _ _ _ _ _); reflexivity.
Qed.

(** On an instance whose caches were cleared the computed value is made of
    what the two loops produce. *)
Lemma timeaxisUnits_cleared (fuel : nat) (now : Z) (inst : Instance)
    (lower upper : list TimeaxisUnit) :
  lowerLoop U getHolidayInfo fuel inst (chartStart (config inst)) = Some lower ->
  upperLoop U getHolidayInfo fuel inst
    (startOf (locale (config inst)) (getDayjsUnit (upperPrecision inst))
       (chartStart (config inst))) = Some upper ->
  exists inst',
    timeaxisUnits U getHolidayInfo fuel now (clearCaches inst) =
    Some ({| upperUnits := upper; lowerUnits := lower;
             globalMinuteStep := calculateMinuteSteps inst |}, inst').
Proof.
  intros Hl Hu.
  assert (El : lowerLoop U getHolidayInfo fuel (clearCaches inst)
                 (chartStart (config inst)) = Some lower).
  { rewrite lowerLoop_cursors. rewrite lowerLoop_cursors in Hl. exact Hl. }
  assert (Eu : upperLoop U getHolidayInfo fuel (clearCaches inst)
                 (startOf (locale (config inst))
                    (getDayjsUnit (upperPrecision inst))
                    (chartStart (config inst))) = Some upper).
  { rewrite upperLoop_cells. rewrite upperLoop_cells in Hu. exact Hu. }
  unfold timeaxisUnits, getFromCache.
  change (cacheLower (clearCaches inst)) with (∅ : gmap jsstring CacheEntry).
  change (cacheUpper (clearCaches inst)) with (∅ : gmap jsstring CacheEntry).
  rewrite !lookup_empty.
  change (config (clearCaches inst)) with (config inst).
  change (upperPrecision (clearCaches inst)) with (upperPrecision inst).
  rewrite El, Eu. cbn. eexists. reflexivity.
Qed.

(** Whatever the caches hold, the computed value exists as soon as both
    loops come to an end. *)
Lemma timeaxisUnits_total (fuel : nat) (now : Z) (inst : Instance)
    (lower upper : list TimeaxisUnit) :
  lowerLoop U getHolidayInfo fuel inst (chartStart (config inst)) = Some lower ->
  upperLoop U getHolidayInfo fuel inst
    (startOf (locale (config inst)) (getDayjsUnit (upperPrecision inst))
       (chartStart (config inst))) = Some upper ->
  exists r inst', timeaxisUnits U getHolidayInfo fuel now inst = Some (r, inst').
Proof.
  intros Hl Hu. unfold timeaxisUnits. rewrite Hl, Hu.
  destruct (getFromCache (cacheLower inst) _ now) as [[cl |] ml];
    destruct (getFromCache (cacheUpper inst) _ now) as [[cu |] mu];
    cbn; eexists _, _; reflexivity.
Qed.

(** The same, from the skeletons of the two loops. *)
Lemma timeaxisUnits_of_skeletons (fuel : nat) (now : Z) (inst : Instance)
    (cursors : list Dayjs) (cells : list (Dayjs * Z)) :
  lowerCursors fuel (chartEnd (config inst))
    (getDayjsUnit (internalPrecision inst)) (chartStart (config inst))
  = Some cursors ->
  upperCells fuel (chartStart (config inst)) (chartEnd (config inst))
    (internalPrecision inst) (getDayjsUnit (upperPrecision inst))
    (unitWidth inst)
    (startOf (locale (config inst)) (getDayjsUnit (upperPrecision inst))
       (chartStart (config inst)))
  = Some cells ->
  exists inst',
    timeaxisUnits U getHolidayInfo fuel now (clearCaches inst) =
    Some ({| upperUnits :=
               map (fun c => createTimeaxisUnit U getHolidayInfo (config inst)
                               c.1 (getDisplayFormat (upperPrecision inst))
                               (px c.2)) cells;
             lowerUnits :=
               map (fun d => createTimeaxisUnit U getHolidayInfo (config inst) d
                               (getDisplayFormat (internalPrecision inst))
                               (px (unitWidth inst))) cursors;
             globalMinuteStep := calculateMinuteSteps inst |}, inst').
Proof.
  intros Ec Eu. apply timeaxisUnits_cleared.
  - rewrite lowerLoop_cursors, Ec. reflexivity.
  - rewrite upperLoop_cells, Eu. reflexivity.
Qed.

(** *** Counting units *)

Lemma Qceiling_quotient (a b : Z) :
  0 < b -> Qceiling (inject_Z a / inject_Z b) = ceilDiv a b.
Proof.
  intros Hb. destruct b as [| p | p]; try lia.
  unfold ceilDiv, Qceiling, Qfloor, Qdiv, Qmult, Qinv, Qopp, inject_Z. cbn.
  rewrite Z.mul_1_r. reflexivity.
Qed.

Lemma ceilDiv_positive (a b : Z) : 0 < a -> 0 < b -> 1 <= ceilDiv a b.
Proof. unfold ceilDiv. intros. Z.div_mod_to_equations. nia. Qed.

Lemma ceilDiv_nonpositive (a b : Z) : a <= 0 -> 0 < b -> ceilDiv a b <= 0.
Proof. unfold ceilDiv. intros. Z.div_mod_to_equations. nia. Qed.

Lemma ceilDiv_step (a b : Z) : 0 < b -> ceilDiv (a - b) b = ceilDiv a b - 1.
Proof.
  unfold ceilDiv. intros Hb.
  replace (- (a - b)) with (- a + 1 * b) by lia.
  rewrite Z.div_add by lia. lia.
Qed.

Lemma ceilDiv_add (x y b : Z) :
  0 < b ->
  ceilDiv (x + y) b <= ceilDiv x b + ceilDiv y b
  /\ ceilDiv x b + ceilDiv y b <= ceilDiv (x + y) b + 1.
Proof. unfold ceilDiv. intros. Z.div_mod_to_equations. nia. Qed.

Lemma unitLength_positive (u : ManipulateType) : 0 < unitLength u.
Proof. destruct u; reflexivity. Qed.

Lemma unitsInPeriod_fixed (p : TimeUnit) (a b : Dayjs) :
  fixedLength p ->
  unitsInPeriod p a b =
  ceilDiv (valueOf b - valueOf a) (unitLength (getDayjsUnit p)).
Proof.
  intros [-> | [-> | ->]]; unfold unitsInPeriod, diff; cbn [getDayjsUnit unitLength];
    apply Qceiling_quotient; reflexivity.
Qed.

(** The lower loop ends, and visits as many cursors as units, whole or
    partial, fit between the cursor and the end of the chart. *)
Lemma lowerCursors_count (chartEnd : Dayjs) (u : ManipulateType) :
  u = Hour \/ u = Day \/ u = Week ->
  forall (fuel : nat) (cur : Dayjs),
    isValid cur = true ->
    valueOf chartEnd - valueOf cur <= Z.of_nat fuel * unitLength u ->
    exists cursors,
      lowerCursors fuel chartEnd u cur = Some cursors
      /\ Z.of_nat (length cursors)
         = Z.max 0 (ceilDiv (valueOf chartEnd - valueOf cur) (unitLength u)).
Proof.
  intros Hu. pose proof (unitLength_positive u) as HL.
  induction fuel as [| fuel IH]; intros cur Hv Hfuel;
    cbn [lowerCursors]; unfold isBefore;
    destruct (Z.ltb_spec (valueOf cur) (valueOf chartEnd)) as [Hlt | Hge].
  - lia.
  - exists []. split; [reflexivity |].
    pose proof (ceilDiv_nonpositive (valueOf chartEnd - valueOf cur)
                  (unitLength u) ltac:(lia) HL). cbn. lia.
  - destruct (add1_fixed_length u cur Hu Hv) as [Hv' He'].
    destruct (IH (add1 u cur) Hv') as (cursors & Ec & Hn); [lia |].
    rewrite Ec. exists (cur :: cursors). split; [reflexivity |].
    cbn [length]. rewrite Nat2Z.inj_succ, Hn, He'.
    replace (valueOf chartEnd - (valueOf cur + unitLength u))
      with ((valueOf chartEnd - valueOf cur) - unitLength u) by lia.
    rewrite ceilDiv_step by exact HL.
    pose proof (ceilDiv_positive (valueOf chartEnd - valueOf cur)
                  (unitLength u) ltac:(lia) HL). lia.
  - exists []. split; [reflexivity |].
    pose proof (ceilDiv_nonpositive (valueOf chartEnd - valueOf cur)
                  (unitLength u) ltac:(lia) HL). cbn. lia.
Qed.

Lemma upperCells_done (fuel : nat) (s e : Dayjs) (p : TimeUnit)
    (u : ManipulateType) (w : Z) (c : Dayjs) :
  valueOf e <= valueOf c -> upperCells fuel s e p u w c = Some [].
Proof.
  intros H. destruct fuel; cbn [upperCells]; unfold isBefore;
    destruct (Z.ltb_spec (valueOf c) (valueOf e)); (lia || reflexivity).
Qed.

(** The lower loop by the month, from a date on or before the 28th. *)
Lemma lowerCursors_count_month (chartEnd : Dayjs) :
  safeDay chartEnd ->
  forall (fuel : nat) (cur : Dayjs),
    safeDay cur ->
    monthIndex chartEnd - monthIndex cur + 1 <= Z.of_nat fuel ->
    exists cursors,
      lowerCursors fuel chartEnd Month cur = Some cursors
      /\ Z.of_nat (length cursors) = Z.max 0 (monthsBetween cur chartEnd).
Proof.
  intros He. induction fuel as [| fuel IH]; intros cur Hc Hfuel;
    cbn [lowerCursors]; unfold isBefore;
    destruct (Z.ltb_spec (valueOf cur) (valueOf chartEnd)) as [Hlt | Hge].
  - apply (safe_order cur chartEnd Hc He) in Hlt. lia.
  - exists []. split; [reflexivity |].
    pose proof (monthsBetween_nonpositive cur chartEnd Hc He Hge). cbn. lia.
  - cbn [add1].
    destruct (addMonths_safe 1 cur Hc) as (Hc' & Ei & Ew).
    destruct (IH (addMonths 1 cur) Hc') as (cursors & Ec & Hn); [lia |].
    rewrite Ec. exists (cur :: cursors). split; [reflexivity |].
    cbn [length]. rewrite Nat2Z.inj_succ, Hn.
    pose proof (monthsBetween_positive cur chartEnd Hc He Hlt).
    unfold monthsBetween in *. rewrite Ei, Ew. lia.
  - exists []. split; [reflexivity |].
    pose proof (monthsBetween_nonpositive cur chartEnd Hc He Hge). cbn. lia.
Qed.

(** The upper loop, for any way of counting units that is positive on
    intervals, sees instants only, and splits at a cursor with at most one
    unit of excess. *)
Section UpperSum.

Context (L : Locale) (s e : Dayjs) (p : TimeUnit) (u : ManipulateType) (w : Z).
Context (admissible : Dayjs -> Prop) (count : Dayjs -> Dayjs -> Z).

Hypothesis Hu : isPeriod u.
Hypothesis Hw : 0 < w.
Hypothesis Hse : valueOf s < valueOf e.
Hypothesis Hs : admissible s.
Hypothesis He : admissible e.
Hypothesis Hcursor :
  forall c, isValid c = true -> startOf L u c = c -> admissible c.
Hypothesis Hunits :
  forall a b, admissible a -> admissible b -> unitsInPeriod p a b = count a b.
Hypothesis Hpositive :
  forall a b, admissible a -> admissible b -> valueOf a < valueOf b ->
              1 <= count a b.
Hypothesis Hinstant :
  forall a b b', admissible b -> admissible b' -> valueOf b = valueOf b' ->
                 count a b = count a b'.
Hypothesis Hsplit :
  forall lo mid,
    admissible lo -> isValid mid = true -> startOf L u mid = mid ->
    valueOf lo < valueOf mid -> valueOf mid < valueOf e ->
    count lo e <= count lo mid + count mid e
    /\ count lo mid + count mid e <= count lo e + 1.

(** The upper loop ends; every period it visits gives a cell, and the
    widths of the cells add up to the units between the chart start (or the
    cursor) and the chart end, plus less than one unit per further cell. *)
Lemma upperCells_sum :
  forall (fuel : nat) (c : Dayjs),
    isValid c = true -> startOf L u c = c ->
    valueOf s < valueOf (add1 u c) ->
    (1 <= fuel)%nat ->
    valueOf e - valueOf (add1 u c) <= (Z.of_nat fuel - 1) * MILLISECONDS_A_DAY ->
    valueOf c < valueOf e ->
    exists cells,
      upperCells fuel s e p u w c = Some cells
      /\ (1 <= length cells)%nat
      /\ Forall (fun cell => 0 < cell.2) cells
      /\ (let n := count (if isBefore c s then s else c) e in
          n * w <= sumWidths cells
          /\ sumWidths cells <= (n + Z.of_nat (length cells) - 1) * w).
Proof.
  induction fuel as [| fuel IH]; intros c Hv Hc Hnext Hfuel Hbound Hce; [lia |].
  destruct (add1_period_step L u c Hu Hv Hc) as (Hv' & Hc' & Hstep).
  unfold MILLISECONDS_A_DAY in *.
  cbn [upperCells]. unfold isBefore at 1.
  rewrite (proj2 (Z.ltb_lt _ _) Hce). cbn zeta.
  set (next := add1 u c) in *.
  set (lo := if isBefore c s then s else c).
  assert (Hlo : admissible lo).
  { unfold lo. destruct (isBefore c s); [exact Hs | apply Hcursor; assumption]. }
  assert (Elo : valueOf lo = Z.max (valueOf c) (valueOf s)).
  { unfold lo, isBefore.
    destruct (Z.ltb_spec (valueOf c) (valueOf s)); lia. }
  assert (Hnx : admissible next) by (apply Hcursor; assumption).
  destruct (Z.lt_ge_cases (valueOf next) (valueOf e)) as [Hlt | Hge].
  - (* the next period starts within the chart *)
    assert (Eend : (if isAfter next e then e else next) = next).
    { unfold isAfter. destruct (Z.ltb_spec (valueOf e) (valueOf next)); [lia |].
      reflexivity. }
    rewrite Eend. rewrite Hunits by assumption.
    pose proof (Hpositive lo next Hlo Hnx ltac:(lia)) as Hx.
    rewrite (proj2 (Z.ltb_lt 0 (count lo next * w))) by nia.
    assert (H1 : valueOf s < valueOf (add1 u next)).
    { destruct (add1_period_step L u next Hu Hv' Hc') as (_ & _ & Hstep').
      unfold MILLISECONDS_A_DAY in *. lia. }
    assert (H2 : (1 <= fuel)%nat) by lia.
    assert (H3 : valueOf e - valueOf (add1 u next)
                 <= (Z.of_nat fuel - 1) * 86400000).
    { destruct (add1_period_step L u next Hu Hv' Hc') as (_ & _ & Hstep').
      unfold MILLISECONDS_A_DAY in *. lia. }
    destruct (IH next Hv' Hc' H1 H2 H3 Hlt)
      as (cells & Ec & Hn & Hpos & Hlow & Hup).
    rewrite Ec. exists ((c, count lo next * w) :: cells).
    split; [reflexivity |].
    split; [cbn; lia |]. split; [constructor; [cbn; nia | exact Hpos] |].
    cbn zeta in *. cbn [sumWidths foldr length snd].
    fold (sumWidths cells). rewrite Nat2Z.inj_succ.
    assert (Enext : (if isBefore next s then s else next) = next).
    { unfold isBefore. destruct (Z.ltb_spec (valueOf next) (valueOf s)); [lia |].
      reflexivity. }
    rewrite Enext in Hlow, Hup.
    destruct (Hsplit lo next Hlo Hv' Hc' ltac:(lia) Hlt) as [Hsub Hsup].
    split; nia.
  - (* the chart ends within this period *)
    rewrite upperCells_done by lia.
    assert (Ex : unitsInPeriod p lo (if isAfter next e then e else next)
                 = count lo e).
    { unfold isAfter. destruct (Z.ltb_spec (valueOf e) (valueOf next)).
      - apply Hunits; assumption.
      - rewrite Hunits by assumption. apply Hinstant; [assumption .. | lia]. }
    rewrite Ex.
    pose proof (Hpositive lo e Hlo He ltac:(lia)) as Hx.
    rewrite (proj2 (Z.ltb_lt 0 (count lo e * w))) by nia.
    exists [(c, count lo e * w)]. split; [reflexivity |].
    split; [cbn; lia |]. split; [repeat constructor; cbn; nia |].
    cbn zeta. cbn [sumWidths foldr length snd]. lia.
Qed.

End UpperSum.

(** *** Total widths *)

Lemma totalWidth_lower (cfg : GGanttChartConfig) (fmt : jsstring) (w : Z)
    (cursors : list Dayjs) :
  0 < w ->
  totalWidth
    (map (fun d => createTimeaxisUnit U getHolidayInfo cfg d fmt (px w)) cursors)
  = Some (Z.of_nat (length cursors) * w).
Proof.
  intros Hw. induction cursors as [| d l IH]; [reflexivity |].
  cbn [map totalWidth width createTimeaxisUnit].
  rewrite pxValue_px by exact Hw. rewrite IH. cbn. f_equal. lia.
Qed.

Lemma totalWidth_upper (cfg : GGanttChartConfig) (fmt : jsstring)
    (cells : list (Dayjs * Z)) :
  Forall (fun cell => 0 < cell.2) cells ->
  totalWidth
    (map (fun c => createTimeaxisUnit U getHolidayInfo cfg c.1 fmt (px c.2)) cells)
  = Some (sumWidths cells).
Proof.
  induction 1 as [| c l Hc Hl IH]; [reflexivity |].
  cbn [map totalWidth width createTimeaxisUnit].
  rewrite pxValue_px by exact Hc. rewrite IH. reflexivity.
Qed.

Lemma upper_unit_is_period (inst : Instance) :
  isPeriod (getDayjsUnit (upperPrecision inst)).
Proof.
  unfold upperPrecision, isPeriod.
  destruct (internalPrecision inst); cbn; auto.
Qed.

Lemma lower_unit_fixed (p : TimeUnit) :
  fixedLength p ->
  getDayjsUnit p = Hour \/ getDayjsUnit p = Day \/ getDayjsUnit p = Week.
Proof. intros [-> | [-> | ->]]; cbn; auto. Qed.

(** Both rows from their skeletons: when the lower loop visits [n] cursors
    and the widths of the upper cells add up to [n] units plus less than one
    unit per further cell, the rows reconcile. *)
Lemma reconciled_from_counts (fuel : nat) (now : Z) (inst : Instance)
    (cursors : list Dayjs) (cells : list (Dayjs * Z)) (n : Z) :
  0 < unitWidth inst ->
  lowerCursors fuel (chartEnd (config inst))
    (getDayjsUnit (internalPrecision inst)) (chartStart (config inst))
  = Some cursors ->
  Z.of_nat (length cursors) = n ->
  upperCells fuel (chartStart (config inst)) (chartEnd (config inst))
    (internalPrecision inst) (getDayjsUnit (upperPrecision inst))
    (unitWidth inst)
    (startOf (locale (config inst)) (getDayjsUnit (upperPrecision inst))
       (chartStart (config inst)))
  = Some cells ->
  Forall (fun cell => 0 < cell.2) cells ->
  n * unitWidth inst <= sumWidths cells ->
  sumWidths cells <= (n + Z.of_nat (length cells) - 1) * unitWidth inst ->
  exists r inst',
    timeaxisUnits U getHolidayInfo fuel now (clearCaches inst) = Some (r, inst')
    /\ Reconciled r (unitWidth inst).
Proof.
  intros Hw Ecur Hn Ecells Hpos Hlow Hhigh.
  destruct (timeaxisUnits_of_skeletons fuel now inst cursors cells Ecur Ecells)
    as (inst' & Eres).
  eexists _, inst'. split; [exact Eres |].
  unfold Reconciled. cbn [lowerUnits upperUnits].
  exists (Z.of_nat (length cursors) * unitWidth inst), (sumWidths cells).
  split; [apply totalWidth_lower, Hw |].
  split; [apply totalWidth_upper, Hpos |].
  rewrite length_map, Hn. split; [exact Hlow | lia].
Qed.

(** X14. Where the two rows do reconcile. For a chart whose start is a
    date of the calendar and precedes its end, a precision among hour, day
    and week (or the precision month with both ends of the chart on or before
    the 28th of their months) and a zoom level within bounds, the computation
    on cleared caches ends and the upper total is at least the lower total
    and exceeds it by less than one cell width per upper cell. *)
Theorem width_reconciliation (fuel : nat) (now : Z) (inst : Instance) :
  steady inst ->
  MIN_ZOOM <= zoomLevel inst <= MAX_ZOOM ->
  isValid (chartStart (config inst)) = true ->
  valueOf (chartStart (config inst)) < valueOf (chartEnd (config inst)) ->
  (Z.to_nat ((valueOf (chartEnd (config inst))
              - valueOf (chartStart (config inst))) / MILLISECONDS_A_HOUR) + 2
   <= fuel)%nat ->
  exists r inst',
    timeaxisUnits U getHolidayInfo fuel now (clearCaches inst) = Some (r, inst')
    /\ Reconciled r (unitWidth inst).
Proof.
  intros Hsteady Hz Hv Hse Hfuel.
  set (cfg := config inst) in *.
  set (s := chartStart cfg) in *. set (e := chartEnd cfg) in *.
  set (up := getDayjsUnit (upperPrecision inst)).
  assert (Hw : 0 < unitWidth inst).
  { unfold unitWidth, BASE_UNIT_WIDTH, MIN_ZOOM in *. lia. }
  assert (Hdelta : valueOf e - valueOf s
                   < (Z.of_nat fuel - 1) * MILLISECONDS_A_HOUR).
  { unfold MILLISECONDS_A_HOUR in *.
    assert (Hq : (valueOf e - valueOf s) / 3600000 + 2 <= Z.of_nat fuel) by lia.
    revert Hq. generalize (valueOf e - valueOf s). intros d Hq.
    Z.div_mod_to_equations. lia. }
  pose proof (upper_unit_is_period inst) as Hup. fold up in Hup.
  destruct (startOf_valid (locale cfg) up s Hup Hv) as (Hv0 & Hc0 & Hle0).
  pose proof (before_next_period (locale cfg) up s Hup Hv) as Hnext0.
  set (c0 := startOf (locale cfg) up s) in *.
  assert (Hlo : valueOf (if isBefore c0 s then s else c0) = valueOf s).
  { unfold isBefore. destruct (Z.ltb_spec (valueOf c0) (valueOf s)); lia. }
  destruct Hsteady as [Hp | (Hp & Hss & Hse')].
  - (* a unit of fixed length *)
    set (u := getDayjsUnit (internalPrecision inst)).
    pose proof (unitLength_positive u) as HL.
    assert (Hhour : MILLISECONDS_A_HOUR <= unitLength u).
    { destruct (lower_unit_fixed _ Hp) as [E | [E | E]]; fold u in E; rewrite E;
        vm_compute; discriminate. }
    destruct (lowerCursors_count e u (lower_unit_fixed _ Hp) fuel s Hv)
      as (cursors & Ecur & Hcount).
    { unfold MILLISECONDS_A_HOUR in *. nia. }
    pose proof (ceilDiv_positive (valueOf e - valueOf s) (unitLength u)
                  ltac:(lia) HL) as Hn.
    rewrite Z.max_r in Hcount by lia.
    destruct (upperCells_sum (locale cfg) s e (internalPrecision inst) up
                (unitWidth inst) (fun _ => True)
                (fun a b => ceilDiv (valueOf b - valueOf a) (unitLength u))
                Hup Hw Hse I I (fun _ _ _ => I))
      with (fuel := fuel) (c := c0)
      as (cells & Ecells & _ & Hpos & Hlow & Hhigh).
    + intros a b _ _. apply unitsInPeriod_fixed, Hp.
    + intros a b _ _ Hab. apply ceilDiv_positive; [lia | exact HL].
    + intros a b b' _ _ E. rewrite E. reflexivity.
    + intros lo mid _ _ _ H1 H2.
      pose proof (ceilDiv_add (valueOf mid - valueOf lo)
                    (valueOf e - valueOf mid) (unitLength u) HL) as Hadd.
      replace (valueOf mid - valueOf lo + (valueOf e - valueOf mid))
        with (valueOf e - valueOf lo) in Hadd by lia.
      exact Hadd.
    + exact Hv0.
    + exact Hc0.
    + exact Hnext0.
    + lia.
    + unfold MILLISECONDS_A_HOUR, MILLISECONDS_A_DAY in *. lia.
    + lia.
    + cbn zeta in Hlow, Hhigh. rewrite Hlo in Hlow, Hhigh.
      exact (reconciled_from_counts fuel now inst cursors cells _ Hw Ecur
               Hcount Ecells Hpos Hlow Hhigh).
  - (* by the month, away from the ends of the months *)
    assert (Eu : getDayjsUnit (internalPrecision inst) = Month)
      by (rewrite Hp; reflexivity).
    assert (Eup : up = Year).
    { unfold up, upperPrecision. rewrite Hp. reflexivity. }
    fold cfg s in Hss. fold cfg e in Hse'.
    pose proof (proj1 (safe_order s e Hss Hse') Hse) as Horder.
    pose proof (withinMonth_bounds s Hss) as Bs.
    pose proof (withinMonth_bounds e Hse') as Be.
    assert (Hmonths : monthIndex e - monthIndex s + 1 <= Z.of_nat fuel).
    { pose proof (firstOfMonth_mono (monthIndex s) (monthIndex e) ltac:(lia)).
      rewrite (valueOf_monthly s), (valueOf_monthly e) in Hdelta
        by (apply Hss || apply Hse').
      unfold MILLISECONDS_A_HOUR, MILLISECONDS_A_DAY in *. lia. }
    destruct (lowerCursors_count_month e Hse' fuel s Hss Hmonths)
      as (cursors & Ecur & Hcount).
    pose proof (monthsBetween_positive s e Hss Hse' Hse) as Hn.
    rewrite Z.max_r in Hcount by lia.
    rewrite <- Eu in Ecur.
    destruct (upperCells_sum (locale cfg) s e (internalPrecision inst) up
                (unitWidth inst) safeDay monthsBetween
                Hup Hw Hse Hss Hse')
      with (fuel := fuel) (c := c0)
      as (cells & Ecells & _ & Hpos & Hlow & Hhigh).
    + intros c Hc Hcc. rewrite Eup in Hcc.
      apply (year_start_safe (locale cfg) c Hc Hcc).
    + intros a b Ha Hb. rewrite Hp. apply unitsInPeriod_month; assumption.
    + intros a b Ha Hb Hab. apply monthsBetween_positive; assumption.
    + intros a b b' Hb Hb' E. apply monthsBetween_same_instant; assumption.
    + intros lo mid Hl Hm Hmm H1 H2. rewrite Eup in Hmm.
      destruct (year_start_safe (locale cfg) mid Hm Hmm) as [Hsafe Hzero].
      pose proof (withinMonth_bounds lo Hl) as Bl.
      unfold monthsBetween. rewrite Hzero.
      destruct (Z.ltb_spec (withinMonth lo) (withinMonth e)),
        (Z.ltb_spec (withinMonth lo) 0), (Z.ltb_spec 0 (withinMonth e)); lia.
    + exact Hv0.
    + exact Hc0.
    + exact Hnext0.
    + lia.
    + unfold MILLISECONDS_A_HOUR, MILLISECONDS_A_DAY in *. lia.
    + lia.
    + cbn zeta in Hlow, Hhigh.
      assert (Ecount : monthsBetween (if isBefore c0 s then s else c0) e
                       = monthsBetween s e).
      { unfold isBefore. destruct (Z.ltb_spec (valueOf c0) (valueOf s)) as [| Hge];
          [reflexivity |].
        assert (Hc0s : safeDay c0).
        { refine (proj1 (year_start_safe (locale cfg) c0 Hv0 _)).
          rewrite <- Eup. exact Hc0. }
        assert (H1 : ~ valueOf c0 < valueOf s) by lia.
        assert (H2 : ~ valueOf s < valueOf c0) by lia.
        rewrite (safe_order c0 s Hc0s Hss) in H1.
        rewrite (safe_order s c0 Hss Hc0s) in H2.
        unfold monthsBetween.
        replace (monthIndex c0) with (monthIndex s) by lia.
        replace (withinMonth c0) with (withinMonth s) by lia.
        reflexivity. }
      rewrite Ecount in Hlow, Hhigh.
      exact (reconciled_from_counts fuel now inst cursors cells _ Hw Ecur
               Hcount Ecells Hpos Hlow Hhigh).
Qed.

Lemma upperCells_inverted (L : Locale) (fuel : nat) (s e : Dayjs)
    (p : TimeUnit) (u : ManipulateType) (w : Z) :
  isPeriod u -> isValid s = true -> valueOf e <= valueOf s ->
  (1 <= fuel)%nat ->
  exists cells, upperCells fuel s e p u w (startOf L u s) = Some cells.
Proof.
  intros Hu Hv Hes Hfuel. destruct fuel as [| fuel]; [lia |].
  pose proof (before_next_period L u s Hu Hv) as Hnext.
  cbn [upperCells]. destruct (isBefore (startOf L u s) e); [| eauto].
  cbn zeta. rewrite upperCells_done by lia.
  destruct (0 <? _); eauto.
Qed.

(** C8. For a chart whose end does not come after its start (the start
    being a date of the calendar), one unit of fuel is enough for the
    computation to end, whatever the caches hold: neither loop runs on; and on
    cleared caches the lower row it returns is empty. *)
Theorem inverted_range_terminates (fuel : nat) (now : Z) (inst : Instance) :
  isValid (chartStart (config inst)) = true ->
  valueOf (chartEnd (config inst)) <= valueOf (chartStart (config inst)) ->
  (1 <= fuel)%nat ->
  (exists r inst',
     timeaxisUnits U getHolidayInfo fuel now inst = Some (r, inst'))
  /\ (exists r inst',
        timeaxisUnits U getHolidayInfo fuel now (clearCaches inst)
        = Some (r, inst')
        /\ lowerUnits r = []).
Proof.
  intros Hv Hes Hfuel.
  assert (El : lowerLoop U getHolidayInfo fuel inst (chartStart (config inst))
               = Some []).
  { destruct fuel; cbn [lowerLoop]; unfold isBefore;
      destruct (Z.ltb_spec (valueOf (chartStart (config inst)))
                  (valueOf (chartEnd (config inst)))); (lia || reflexivity). }
  destruct (upperCells_inverted (locale (config inst)) fuel
              (chartStart (config inst)) (chartEnd (config inst))
              (internalPrecision inst) (getDayjsUnit (upperPrecision inst))
              (unitWidth inst) (upper_unit_is_period inst) Hv Hes Hfuel)
    as (cells & Ecells).
  assert (Eu : upperLoop U getHolidayInfo fuel inst
                 (startOf (locale (config inst))
                    (getDayjsUnit (upperPrecision inst))
                    (chartStart (config inst)))
               = Some (map (fun c => createTimeaxisUnit U getHolidayInfo
                                       (config inst) c.1
                                       (getDisplayFormat (upperPrecision inst))
                                       (px c.2)) cells)).
  { rewrite upperLoop_cells, Ecells. reflexivity. }
  split.
  - exact (timeaxisUnits_total fuel now inst _ _ El Eu).
  - destruct (timeaxisUnits_cleared fuel now inst _ _ El Eu) as (inst' & E).
    eexists _, inst'. split; [exact E | reflexivity].
Qed.

End PartitionerProperties.

(** ** The examples of the specification *)

Section Scenario.

Import Dayjs.

Context (U : Unicode) (getHolidayInfo : Z -> option HolidayInfo).



End Scenario.

(** ** The properties at concrete inputs *)

Section Instances.

Import Dayjs.

Ltac run_chart fuel inst :=
  let cursors := fresh "cursors" in
  let cells := fresh "cells" in
  let Ec := fresh "Ec" in
  let Eu := fresh "Eu" in
  let inst' := fresh "inst'" in
  let E := fresh "E" in
  destruct (lowerCursors fuel (chartEnd (config inst))
              (getDayjsUnit (internalPrecision inst)) (chartStart (config inst)))
    as [cursors |] eqn:Ec; [| vm_compute in Ec; discriminate];
  destruct (upperCells fuel (chartStart (config inst)) (chartEnd (config inst))
              (internalPrecision inst) (getDayjsUnit (upperPrecision inst))
              (unitWidth inst)
              (Dayjs.startOf (locale (config inst))
                 (getDayjsUnit (upperPrecision inst)) (chartStart (config inst))))
    as [cells |] eqn:Eu; [| vm_compute in Eu; discriminate];
  destruct (timeaxisUnits_of_skeletons Latin1.tables noHolidays fuel 0 inst
              cursors cells Ec Eu) as (inst' & E);
  change (clearCaches inst) with inst in E;
  vm_compute in Ec; injection Ec as <-;
  vm_compute in Eu; injection Eu as <-;
  eexists _, inst'; split; [exact E |]; cbn [lowerUnits upperUnits].

Lemma width_reconciliation_witness :
  exists r inst',
    timeaxisUnits Latin1.tables noHolidays 65 0
      (clearCaches (useTimeaxisUnits (endToEndChart false true en)))
    = Some (r, inst')
    /\ Reconciled r 72.
Proof.
  apply (width_reconciliation Latin1.tables noHolidays 65 0
           (useTimeaxisUnits (endToEndChart false true en))).
  - left. left. reflexivity.
  - split; vm_compute; discriminate.
  - reflexivity.
  - reflexivity.
  - vm_compute. lia.
Defined.


Lemma inverted_range_terminates_witness :
  exists r inst',
    timeaxisUnits Latin1.tables noHolidays 1 0
      (clearCaches (useTimeaxisUnits invertedChart)) = Some (r, inst')
    /\ lowerUnits r = [].
Proof.
  apply (inverted_range_terminates Latin1.tables noHolidays 1 0
           (useTimeaxisUnits invertedChart)).
  - reflexivity.
  - vm_compute. discriminate.
  - apply le_n.
Defined.

Lemma calculateMinuteSteps_table_witness :
  calculateMinuteSteps
    (withZoom (useTimeaxisUnits (endToEndChart false true en)) hour 10)
  = map str ["00"; "05"; "10"; "15"; "20"; "25";
             "30"; "35"; "40"; "45"; "50"; "55"]%string.
Proof.
  apply (calculateMinuteSteps_table
           (withZoom (useTimeaxisUnits (endToEndChart false true en)) hour 10));
    reflexivity.
Defined.

Lemma getFromCache_expiry_witness :
  let entry := {| timestamp := 1000; units := [] |} in
  let m : gmap jsstring CacheEntry := {[ str "k" := entry ]} in
  (getFromCache m (str "k") 400000).1 = None
  /\ (getFromCache m (str "k") 400000).2 !! str "k" = None.
Proof.
  cbn zeta.
  destruct (getFromCache_expiry
              {[ str "k" := {| timestamp := 1000; units := [] |} ]}
              (str "k") 400000) as (_ & Hold & _).
  destruct (Hold {| timestamp := 1000; units := [] |}) as (H1 & H2 & _).
  - apply lookup_singleton_eq.
  - vm_compute. reflexivity.
  - split; assumption.
Defined.

(** C1 fails in the code. The upper loop gives each of its cells the width
    of the lower-row units it counts in the period, so that the two rows come
    out equally wide, but the count misses the cells the lower loop makes:
    from 31 January 2024 to 30 March 2024 by the month, the lower loop steps
    through 31 January, 29 February and 29 March (adding a month clamps the
    day; three 72px cells), while the month difference the upper loop rounds
    up is 61/31, two cells. The upper total is less than the lower total,
    which no rounding up accounts for. *)
Theorem month_rows_do_not_reconcile :
  exists r inst',
    timeaxisUnits Latin1.tables noHolidays 10 0 (useTimeaxisUnits monthEndChart)
    = Some (r, inst')
    /\ map date_ (lowerUnits r)
       = map valueOf [mk 2024 0 31 0 0 0 0; mk 2024 1 29 0 0 0 0;
                      mk 2024 2 29 0 0 0 0]
    /\ totalWidth (lowerUnits r) = Some 216
    /\ totalWidth (upperUnits r) = Some 144
    /\ ~ Reconciled r (unitWidth (useTimeaxisUnits monthEndChart)).
Proof.
  run_chart 10%nat (useTimeaxisUnits monthEndChart).
  split; [vm_compute; reflexivity |].
  split; [vm_compute; reflexivity |].
  split; [vm_compute; reflexivity |].
  intros (l & u & Hl & Hu & Hle & _).
  vm_compute in Hl. vm_compute in Hu.
  injection Hl as <-. injection Hu as <-. lia.
Qed.

(** With the precision [date] the lower row steps by days while the upper
    row counts hours: two 72px cells below, 48 units above. *)
Lemma date_precision_counts_hours :
  exists r inst',
    timeaxisUnits Latin1.tables noHolidays 10 0 (useTimeaxisUnits dateChart)
    = Some (r, inst')
    /\ length (lowerUnits r) = 2%nat
    /\ totalWidth (lowerUnits r) = Some (2 * 72)
    /\ length (upperUnits r) = 1%nat
    /\ totalWidth (upperUnits r) = Some (48 * 72)
    /\ ~ Reconciled r (unitWidth (useTimeaxisUnits dateChart)).
Proof.
  run_chart 10%nat (useTimeaxisUnits dateChart).
  split; [vm_compute; reflexivity |].
  split; [vm_compute; reflexivity |].
  split; [vm_compute; reflexivity |].
  split; [vm_compute; reflexivity |].
  intros (l & u & Hl & Hu & _ & Hle).
  vm_compute in Hl. vm_compute in Hu.
  injection Hl as <-. injection Hu as <-. vm_compute in Hle. apply Hle. reflexivity.
Qed.

End Instances.

(* ================================================================== *)
(** * Part III. Further properties of the code                        *)
(* ================================================================== *)

(** ** The cache: store, read, sweep *)

Section CacheFurther.

Implicit Types (m : gmap jsstring CacheEntry) (key : jsstring) (now : Z).

Lemma sweep_lookup now m key entry :
  sweep now m !! key = Some entry <-> m !! key = Some entry /\ fresh now entry.
Proof. unfold sweep, fresh. rewrite map_lookup_filter_Some. reflexivity. Qed.

Lemma sweep_idempotent now m : sweep now (sweep now m) = sweep now m.
Proof.
  apply map_eq. intros k. apply option_eq. intros e.
  rewrite !sweep_lookup. tauto.
Qed.

Lemma sweep_all_fresh now m :
  (forall k e, m !! k = Some e -> fresh now e) -> sweep now m = m.
Proof.
  intros H. apply map_eq. intros k. apply option_eq. intros e.
  rewrite sweep_lookup. split; [tauto | intros E; split; [exact E | eauto]].
Qed.

Lemma getFromCache_hit m key now entry :
  m !! key = Some entry -> fresh now entry ->
  getFromCache m key now = (Some (units entry), m).
Proof.
  unfold getFromCache, fresh. intros -> H.
  destruct (Z.ltb_spec CACHE_TTL (now - timestamp entry)); [lia | reflexivity].
Qed.

(** X1. What [setInCache] stores under a key, [getFromCache] returns
    unchanged as long as the age of the entry is within the time-to-live,
    without touching the map; a second store under the key replaces the
    first; the other keys keep their entries. *)
Theorem cache_store_then_read m key (us us' : list TimeaxisUnit) now now' :
  now' - now <= CACHE_TTL ->
  getFromCache (setInCache m key us now) key now'
  = (Some us, setInCache m key us now)
  /\ setInCache (setInCache m key us now) key us' now'
     = setInCache m key us' now'
  /\ (forall k, k <> key ->
        getFromCache (setInCache m key us now) k now'
        = ((getFromCache m k now').1,
           setInCache (getFromCache m k now').2 key us now)).
Proof.
  intros Hage. unfold setInCache. split; [| split].
  - rewrite (getFromCache_hit _ key now' {| timestamp := now; units := us |});
      [reflexivity | apply lookup_insert_eq | exact Hage].
  - apply insert_insert_eq.
  - intros k Hk. unfold getFromCache.
    rewrite lookup_insert_ne by congruence.
    destruct (m !! k) as [e |]; [| reflexivity].
    destruct (CACHE_TTL <? now' - timestamp e); [| reflexivity].
    cbn. f_equal. apply delete_insert_ne. congruence.
Qed.

(** X2. The sweep keeps exactly the entries a read would still return,
    each as it was; sweeping twice is sweeping once; and after a sweep a read
    at the same clock reading answers as it would have before the sweep and
    evicts nothing. *)
Theorem sweep_agrees_with_reads now m :
  (forall key entry,
     sweep now m !! key = Some entry
     <-> m !! key = Some entry /\ now - timestamp entry <= CACHE_TTL)
  /\ sweep now (sweep now m) = sweep now m
  /\ (forall key,
        getFromCache (sweep now m) key now
        = ((getFromCache m key now).1, sweep now m)).
Proof.
  split; [intros key entry; apply sweep_lookup |].
  split; [apply sweep_idempotent |].
  intros key. unfold getFromCache at 2.
  destruct (m !! key) as [e |] eqn:E.
  - destruct (Z.ltb_spec CACHE_TTL (now - timestamp e)) as [Hold | Hnew]; cbn.
    + unfold getFromCache.
      assert (En : sweep now m !! key = None).
      { apply eq_None_not_Some. intros [e' He']. apply sweep_lookup in He'.
        destruct He' as [He' Hf]. unfold fresh in Hf.
        rewrite E in He'. injection He' as <-. lia. }
      rewrite En. reflexivity.
    + apply getFromCache_hit; [apply sweep_lookup; split; [exact E | exact Hnew] |].
      exact Hnew.
  - cbn. unfold getFromCache.
    assert (En : sweep now m !! key = None).
    { apply eq_None_not_Some. intros [e' He']. apply sweep_lookup in He'.
      destruct He' as [He' _]. congruence. }
    rewrite En. reflexivity.
Qed.

End CacheFurther.

(** ** Evaluating [timeaxisUnits] again *)

Section Reevaluation.

Context (U : Unicode) (getHolidayInfo : Z -> option HolidayInfo).

Implicit Types (m : gmap jsstring CacheEntry) (key : jsstring) (now : Z).

(** A read either hits a fresh entry and leaves the map, or misses and
    leaves the map without the key. *)
Lemma getFromCache_cases m key now :
  (exists entry, m !! key = Some entry /\ fresh now entry
                 /\ getFromCache m key now = (Some (units entry), m))
  \/ getFromCache m key now = (None, delete key m).
Proof.
  unfold getFromCache, fresh. destruct (m !! key) as [e |] eqn:E.
  - destruct (Z.ltb_spec CACHE_TTL (now - timestamp e)); [right; reflexivity |].
    left. exists e. auto.
  - right. rewrite delete_id by exact E. reflexivity.
Qed.

(** One cache through an evaluation: read, compute on a miss, store. *)
Lemma cache_after_evaluation m key now (computed : option (list TimeaxisUnit))
    (us : list TimeaxisUnit) m' :
  (let '(cached, m1) := getFromCache m key now in
   match cached with
   | Some us => Some (us, m1)
   | None => us ← computed; Some (us, setInCache m1 key us now)
   end) = Some (us, m') ->
  exists entry,
    m' !! key = Some entry /\ units entry = us /\ fresh now entry.
Proof.
  destruct (getFromCache_cases m key now) as [(e & E & Hf & ->) | ->].
  - intros [= <- <-]. exists e. auto.
  - destruct computed as [us0 |]; [| discriminate]. cbn.
    intros [= <- <-]. eexists. split; [apply lookup_insert_eq |].
    split; [reflexivity |]. unfold fresh, CACHE_TTL. cbn. lia.
Qed.

(** With fresh entries under both keys nothing is computed. *)
Lemma timeaxisUnits_hit (fuel : nat) now (inst : Instance)
    (lowerEntry upperEntry : CacheEntry) :
  cacheLower inst !! lowerCacheKey inst = Some lowerEntry ->
  fresh now lowerEntry ->
  cacheUpper inst !! upperCacheKey inst = Some upperEntry ->
  fresh now upperEntry ->
  timeaxisUnits U getHolidayInfo fuel now inst
  = Some ({| upperUnits := units upperEntry;
             lowerUnits := units lowerEntry;
             globalMinuteStep := calculateMinuteSteps inst |},
          cleanExpiredCache now inst).
Proof.
  intros El Hl Eu Hu. unfold timeaxisUnits.
  fold (lowerCacheKey inst). fold (upperCacheKey inst).
  rewrite (getFromCache_hit _ _ now lowerEntry El Hl).
  rewrite (getFromCache_hit _ _ now upperEntry Eu Hu).
  reflexivity.
Qed.

(** What an evaluation leaves behind: the same configuration, precision
    and zoom, and in each cache a fresh entry under the current key that holds
    the row just returned; no entry that is not fresh remains. *)
Lemma timeaxisUnits_leaves (fuel : nat) now (inst : Instance)
    (r : TimeaxisResult) (inst' : Instance) :
  timeaxisUnits U getHolidayInfo fuel now inst = Some (r, inst') ->
  config inst' = config inst
  /\ internalPrecision inst' = internalPrecision inst
  /\ zoomLevel inst' = zoomLevel inst
  /\ globalMinuteStep r = calculateMinuteSteps inst
  /\ (exists entry, cacheLower inst' !! lowerCacheKey inst = Some entry
                    /\ units entry = lowerUnits r /\ fresh now entry)
  /\ (exists entry, cacheUpper inst' !! upperCacheKey inst = Some entry
                    /\ units entry = upperUnits r /\ fresh now entry)
  /\ (forall k e, cacheLower inst' !! k = Some e -> fresh now e)
  /\ (forall k e, cacheUpper inst' !! k = Some e -> fresh now e).
Proof.
  unfold timeaxisUnits.
  fold (lowerCacheKey inst). fold (upperCacheKey inst).
  destruct (let '(cached, m1) := getFromCache (cacheLower inst) (lowerCacheKey inst) now in
            match cached with
            | Some us => Some (us, m1)
            | None => us ← lowerLoop U getHolidayInfo fuel inst (chartStart (config inst));
                      Some (us, setInCache m1 (lowerCacheKey inst) us now)
            end) as [[lus lm] |] eqn:EL.
  2:{ destruct (getFromCache (cacheLower inst) (lowerCacheKey inst) now)
        as [[c |] m1]; cbn in *; [discriminate |].
      destruct (lowerLoop _ _ _ _ _); cbn in *; discriminate. }
  destruct (let '(cached, m1) := getFromCache (cacheUpper inst) (upperCacheKey inst) now in
            match cached with
            | Some us => Some (us, m1)
            | None => us ← upperLoop U getHolidayInfo fuel inst
                             (Dayjs.startOf (locale (config inst))
                                (getDayjsUnit (upperPrecision inst))
                                (chartStart (config inst)));
                      Some (us, setInCache m1 (upperCacheKey inst) us now)
            end) as [[uus um] |] eqn:EU.
  2:{ destruct (getFromCache (cacheLower inst) (lowerCacheKey inst) now)
        as [c m1]; cbn in *.
      destruct (getFromCache (cacheUpper inst) (upperCacheKey inst) now)
        as [[c' |] m1']; cbn in *; [discriminate |].
      rewrite EL. cbn.
      destruct (upperLoop _ _ _ _ _); cbn in *; discriminate. }
  destruct (cache_after_evaluation _ _ _ _ _ _ EL) as (el & Hel & Hul & Hfl).
  destruct (cache_after_evaluation _ _ _ _ _ _ EU) as (eu & Heu & Huu & Hfu).
  destruct (getFromCache (cacheLower inst) (lowerCacheKey inst) now) as [cl ml].
  destruct (getFromCache (cacheUpper inst) (upperCacheKey inst) now) as [cu mu].
  rewrite EL. cbn. rewrite EU. cbn.
  intros [= <- <-]. cbn.
  repeat split; try reflexivity.
  - exists el. split; [apply sweep_lookup; auto | auto].
  - exists eu. split; [apply sweep_lookup; auto | auto].
  - intros k e He. apply sweep_lookup in He. tauto.
  - intros k e He. apply sweep_lookup in He. tauto.
Qed.

(** X3. Evaluating again at the same clock reading, from the instance the
    first evaluation left, gives the same value and leaves the instance as it
    is, and needs no fuel: both rows come from the cache. *)
Theorem timeaxisUnits_again (fuel fuel' : nat) now (inst : Instance)
    (r : TimeaxisResult) (inst' : Instance) :
  timeaxisUnits U getHolidayInfo fuel now inst = Some (r, inst') ->
  timeaxisUnits U getHolidayInfo fuel' now inst' = Some (r, inst').
Proof.
  intros E.
  destruct (timeaxisUnits_leaves fuel now inst r inst' E)
    as (Ec & Ep & Ez & Em & (el & Hel & Hul & Hfl) & (eu & Heu & Huu & Hfu)
        & Hall_l & Hall_u).
  assert (Kl : lowerCacheKey inst' = lowerCacheKey inst).
  { unfold lowerCacheKey. rewrite Ec, Ep, Ez. reflexivity. }
  assert (Ku : upperCacheKey inst' = upperCacheKey inst).
  { unfold upperCacheKey, upperPrecision. rewrite Ec, Ep, Ez. reflexivity. }
  rewrite (timeaxisUnits_hit fuel' now inst' el eu);
    [| rewrite Kl; exact Hel | exact Hfl | rewrite Ku; exact Heu | exact Hfu].
  f_equal. f_equal.
  - destruct r as [ru rl rm]. cbn in *. subst. f_equal.
    unfold calculateMinuteSteps, unitWidth. rewrite Ec, Ep, Ez. reflexivity.
  - unfold cleanExpiredCache.
    rewrite (sweep_all_fresh now _ Hall_l), (sweep_all_fresh now _ Hall_u).
    destruct inst'. reflexivity.
Qed.

(** The instance an evaluation on cleared caches leaves: one entry in each
    cache, stamped with the clock reading, holding the row returned. *)
Lemma timeaxisUnits_cleared_leaves (fuel : nat) now (inst : Instance)
    (r : TimeaxisResult) (inst' : Instance) :
  timeaxisUnits U getHolidayInfo fuel now (clearCaches inst) = Some (r, inst') ->
  inst' =
  {| config := config inst;
     internalPrecision := internalPrecision inst;
     zoomLevel := zoomLevel inst;
     cacheLower :=
       {[ lowerCacheKey inst := {| timestamp := now; units := lowerUnits r |} ]};
     cacheUpper :=
       {[ upperCacheKey inst := {| timestamp := now; units := upperUnits r |} ]}
  |}
  /\ globalMinuteStep r = calculateMinuteSteps inst.
Proof.
  unfold timeaxisUnits, getFromCache.
  change (cacheLower (clearCaches inst)) with (∅ : gmap jsstring CacheEntry).
  change (cacheUpper (clearCaches inst)) with (∅ : gmap jsstring CacheEntry).
  rewrite !lookup_empty.
  destruct (lowerLoop U getHolidayInfo fuel (clearCaches inst) _) as [lus |];
    [| discriminate].
  cbn. destruct (upperLoop U getHolidayInfo fuel (clearCaches inst) _) as [uus |];
    [| discriminate].
  cbn. intros [= <- <-]. cbn. split; [| reflexivity].
  unfold cleanExpiredCache, setInCache. cbn.
  rewrite !insert_empty.
  rewrite !sweep_all_fresh; [reflexivity | |];
    intros k e [_ <-]%lookup_singleton_Some; unfold fresh, CACHE_TTL; cbn; lia.
Qed.

(** X4. After an evaluation on cleared caches at clock reading [now]: up to
    the time-to-live later the value is returned again without any
    computation and the instance stays as it is; later than that, the
    evaluation behaves as on cleared caches, computing both rows anew. *)
Theorem timeaxisUnits_within_and_after_ttl (fuel : nat) now (inst : Instance)
    (r : TimeaxisResult) (inst' : Instance) :
  timeaxisUnits U getHolidayInfo fuel now (clearCaches inst) = Some (r, inst') ->
  (forall now' fuel', now' - now <= CACHE_TTL ->
     timeaxisUnits U getHolidayInfo fuel' now' inst' = Some (r, inst'))
  /\ (forall now' fuel', now' - now > CACHE_TTL ->
        timeaxisUnits U getHolidayInfo fuel' now' inst'
        = timeaxisUnits U getHolidayInfo fuel' now' (clearCaches inst)).
Proof.
  intros E. destruct (timeaxisUnits_cleared_leaves fuel now inst r inst' E)
    as [-> Em].
  split.
  - intros now' fuel' Hage.
    rewrite (timeaxisUnits_hit fuel' now' _
               {| timestamp := now; units := lowerUnits r |}
               {| timestamp := now; units := upperUnits r |});
      [| apply lookup_singleton_eq | exact Hage
       | apply lookup_singleton_eq | exact Hage].
    f_equal. f_equal.
    + destruct r as [ru rl rm]. cbn in *. subst. reflexivity.
    + unfold cleanExpiredCache. cbn.
      rewrite !sweep_all_fresh; [reflexivity | |];
        intros k e [_ <-]%lookup_singleton_Some; exact Hage.
  - intros now' fuel' Hage. unfold timeaxisUnits, getFromCache. cbn.
    fold (lowerCacheKey inst). fold (upperCacheKey inst).
    rewrite !lookup_singleton_eq, !lookup_empty. cbn.
    destruct (Z.ltb_spec CACHE_TTL (now' - now)); [| lia].
    rewrite !delete_singleton_eq.
    rewrite !lowerLoop_cursors, !upperLoop_cells. reflexivity.
Qed.

End Reevaluation.

(** ** Zooming in and out *)

Section ZoomFurther.

Lemma zoom_cases (z : Z) :
  MIN_ZOOM <= z <= MAX_ZOOM ->
  z = 1 \/ z = 2 \/ z = 3 \/ z = 4 \/ z = 5 \/ z = 6 \/ z = 7 \/ z = 8
  \/ z = 9 \/ z = 10.
Proof. unfold MIN_ZOOM, MAX_ZOOM. lia. Qed.

Ltac each_zoom H :=
  apply zoom_cases in H;
  repeat (destruct H as [H | H]; [subst |]); [.. | subst].

(** X5. With the zoom level within bounds, the internal precision in the
    hierarchy and not finer than the configured one: a zoom-out that changes
    the state is undone by the next zoom-in, and a zoom-in that changes the
    state is undone by the next zoom-out. *)
Theorem zoom_in_and_out_are_inverse (inst : Instance) :
  MIN_ZOOM <= zoomLevel inst <= MAX_ZOOM ->
  internalPrecision inst ∈ precisionHierarchy ->
  indexOf precisionHierarchy (precision (config inst))
  <= indexOf precisionHierarchy (internalPrecision inst) ->
  (adjustZoomAndPrecision false inst <> inst ->
   adjustZoomAndPrecision true (adjustZoomAndPrecision false inst) = inst)
  /\ (adjustZoomAndPrecision true inst <> inst ->
      adjustZoomAndPrecision false (adjustZoomAndPrecision true inst) = inst).
Proof.
  destruct inst as [[cp hh loc em cs ce] p z cl cu]. cbn.
  intros Hz Hin Hidx.
  assert (Hnd : p <> date).
  { intros ->. revert Hin. unfold precisionHierarchy.
    rewrite !elem_of_cons, elem_of_nil. intuition discriminate. }
  clear Hin.
  each_zoom Hz; destruct cp, p; try congruence;
    try (exfalso; vm_compute in Hidx; apply Hidx; reflexivity);
    (split; intros Hne;
     first [reflexivity | exfalso; apply Hne; reflexivity]).
Qed.

Lemma step_controls (a b : Instance) (e : Event) :
  sameControls a b -> sameControls (step a e) (step b e).
Proof.
  destruct a as [cfg p z cl cu], b as [cfg' p' z' cl' cu'].
  unfold sameControls. cbn. intros (-> & -> & ->).
  destruct e as [[|] | q]; cbn;
    unfold adjustZoomAndPrecision, setConfigPrecision, withZoom; cbn;
    repeat case_match; cbn; auto.
Qed.

Lemma step_caches (inst : Instance) (e : Event) :
  cacheLower (step inst e) = cacheLower inst
  /\ cacheUpper (step inst e) = cacheUpper inst.
Proof.
  destruct e as [[|] | q]; cbn;
    unfold adjustZoomAndPrecision, setConfigPrecision, withZoom; cbn;
    repeat case_match; cbn; auto.
Qed.

Lemma cacheWatcher_controls (seen inst : Instance) :
  sameControls (cacheWatcher seen inst) inst.
Proof.
  unfold cacheWatcher, sameControls. case_decide; cbn; auto.
Qed.

Lemma tick_caches (inst : Instance) (e : Event) :
  (cacheLower (tick inst e) = cacheLower inst
   /\ cacheUpper (tick inst e) = cacheUpper inst)
  \/ (cacheLower (tick inst e) = ∅ /\ cacheUpper (tick inst e) = ∅).
Proof.
  unfold tick, cacheWatcher. case_decide; cbn; [| right; auto].
  left. apply step_caches.
Qed.

Lemma run_cons (inst : Instance) (e : Event) (es : list Event) :
  run inst (e :: es) = run (step inst e) es.
Proof. reflexivity. Qed.

Lemma runTicks_cons (inst : Instance) (e : Event) (es : list Event) :
  runTicks inst (e :: es) = runTicks (tick inst e) es.
Proof. reflexivity. Qed.

Lemma runTicks_controls (es : list Event) :
  forall a b, sameControls a b -> sameControls (runTicks a es) (run b es).
Proof.
  induction es as [| e es IH]; intros a b H; [exact H |].
  rewrite run_cons, runTicks_cons. apply IH. unfold tick.
  destruct (cacheWatcher_controls a (step a e)) as (E1 & E2 & E3).
  destruct (step_controls a b e H) as (F1 & F2 & F3).
  unfold sameControls. rewrite E1, E2, E3. auto.
Qed.

Lemma runTicks_caches (es : list Event) :
  forall inst,
    (cacheLower (runTicks inst es) = cacheLower inst
     /\ cacheUpper (runTicks inst es) = cacheUpper inst)
    \/ (cacheLower (runTicks inst es) = ∅
        /\ cacheUpper (runTicks inst es) = ∅).
Proof.
  induction es as [| e es IH]; intros inst; [left; auto |].
  rewrite runTicks_cons.
  destruct (IH (tick inst e)) as [[E1 E2] | H]; [| right; exact H].
  rewrite E1, E2. apply tick_caches.
Qed.

(** Zoom-out calls in a row. *)
Lemma zoom_out_in_a_row (inst : Instance) (n : nat) :
  MIN_ZOOM <= zoomLevel inst <= MAX_ZOOM ->
  (49 <= n)%nat ->
  run inst (repeat (Zoom false) n) = withZoom inst month MIN_ZOOM.
Proof.
  intros Hz Hn. replace n with (49 + (n - 49))%nat by lia.
  generalize (n - 49)%nat. clear n Hn. intros k.
  rewrite repeat_app. unfold run. rewrite fold_left_app.
  assert (E49 : fold_left step (repeat (Zoom false) 49) inst
                = withZoom inst month MIN_ZOOM).
  { destruct inst as [cfg p z cl cu]. cbn in Hz.
    each_zoom Hz; destruct p; reflexivity. }
  rewrite E49. induction k as [| k IH]; [reflexivity |].
  cbn [repeat fold_left]. exact IH.
Qed.

(** Away from [month] at [MIN_ZOOM], a zoom-out changes the precision or
    the zoom level. *)
Lemma zoom_out_changes (inst : Instance) :
  ~ (internalPrecision inst = month /\ zoomLevel inst = MIN_ZOOM) ->
  internalPrecision (adjustZoomAndPrecision false inst) <> internalPrecision inst
  \/ zoomLevel (adjustZoomAndPrecision false inst) <> zoomLevel inst.
Proof.
  destruct inst as [cfg p z cl cu]. cbn. intros Hns.
  unfold adjustZoomAndPrecision. cbn.
  destruct (Z.eqb_spec z MIN_ZOOM) as [-> | Hz].
  - left. destruct p; cbn; try discriminate. tauto.
  - right. cbn. lia.
Qed.

(** X6. Zooming out saturates. From any state with the zoom level within
    bounds, 49 zoom-outs or more, each followed by the watchers, end at the
    precision [month] with zoom [MIN_ZOOM], whatever the precision was (from
    [date] the way leads through [hour]); the configuration is as it was. A
    state already at [month] and [MIN_ZOOM] is left as it is, caches
    included; from any other state the watcher has cleared both caches (no
    evaluation refilling them in between). *)
Theorem zoom_out_saturates (inst : Instance) (n : nat) :
  MIN_ZOOM <= zoomLevel inst <= MAX_ZOOM ->
  (49 <= n)%nat ->
  let final := runTicks inst (repeat (Zoom false) n) in
  config final = config inst
  /\ internalPrecision final = month
  /\ zoomLevel final = MIN_ZOOM
  /\ (internalPrecision inst = month -> zoomLevel inst = MIN_ZOOM ->
      final = inst)
  /\ (~ (internalPrecision inst = month /\ zoomLevel inst = MIN_ZOOM) ->
      cacheLower final = ∅ /\ cacheUpper final = ∅).
Proof.
  intros Hz Hn. cbn zeta.
  assert (Hrefl : sameControls inst inst) by (repeat split).
  destruct (runTicks_controls (repeat (Zoom false) n) inst inst Hrefl)
    as (E1 & E2 & E3).
  rewrite (zoom_out_in_a_row inst n Hz Hn) in E1, E2, E3. cbn in E1, E2, E3.
  repeat split; try assumption.
  - intros Hp Hzoom.
    assert (Hfix : tick inst (Zoom false) = inst).
    { destruct inst as [cfg p z cl cu]. cbn in Hp, Hzoom. subst.
      unfold tick, cacheWatcher. cbn. rewrite decide_True by auto.
      reflexivity. }
    clear -Hfix. induction n as [| n IH]; [reflexivity |].
    cbn [repeat]. rewrite runTicks_cons, Hfix. exact IH.
  - destruct n as [| n]; [lia |]. cbn [repeat]. rewrite runTicks_cons.
    destruct (runTicks_caches (repeat (Zoom false) n) (tick inst (Zoom false)))
      as [[F1 _] | [F1 _]]; [| exact F1].
    rewrite F1.
    unfold tick, cacheWatcher. cbn [step].
    destruct (zoom_out_changes inst H);
      rewrite decide_False by (intuition congruence);
      reflexivity.
  - destruct n as [| n]; [lia |]. cbn [repeat]. rewrite runTicks_cons.
    destruct (runTicks_caches (repeat (Zoom false) n) (tick inst (Zoom false)))
      as [[_ F2] | [_ F2]]; [| exact F2].
    rewrite F2.
    unfold tick, cacheWatcher. cbn [step].
    destruct (zoom_out_changes inst H);
      rewrite decide_False by (intuition congruence);
      reflexivity.
Qed.


(** X7. Along every run from a fresh instance the cell is between 24px and
    240px wide, so at most 15 divisions of 16px fit: the one-minute step is
    never chosen, a result has at most twelve labels, and with minutes enabled
    at the precision [hour] the labels are those of the step 30, 15, 10 or 5
    (or the single "00" at zoom 1) according to the zoom level. *)
Theorem minute_steps_along_runs (cfg : GGanttChartConfig) (es : list Event) :
  let inst := run (useTimeaxisUnits cfg) es in
  24 <= unitWidth inst <= 240
  /\ calculateMinuteSteps inst <> minutesEvery 1
  /\ (length (calculateMinuteSteps inst) <= 12)%nat
  /\ (enableMinutes (config inst) = true -> internalPrecision inst = hour ->
      calculateMinuteSteps inst =
      match zoomLevel inst with
      | 1 => [str "00"]
      | 2 => minutesEvery 30
      | 3 => minutesEvery 15
      | 4 | 5 | 6 | 7 => minutesEvery 10
      | _ => minutesEvery 5
      end).
Proof.
  cbn zeta. generalize (run (useTimeaxisUnits cfg) es)
    (run_invariant (fun i => MIN_ZOOM <= zoomLevel i <= MAX_ZOOM)
       (fun inst e => step_zoom_bounds inst e) es (useTimeaxisUnits cfg)
       ltac:(cbn; unfold MIN_ZOOM, MAX_ZOOM, DEFAULT_ZOOM; lia)).
  intros [[cp hh loc em cs ce] p z cl cu] Hz. cbn in Hz.
  each_zoom Hz; (split; [vm_compute; split; discriminate |]);
    destruct em, p; cbn [config enableMinutes internalPrecision zoomLevel];
    (split; [vm_compute; discriminate |]);
    (split; [vm_compute; repeat constructor |]);
    intros; try discriminate; vm_compute; reflexivity.
Qed.

End ZoomFurther.

(** ** Cache keys *)

Section CacheKeys.

Lemma readDigits_stop (r : jsstring) :
  noDigitAhead r -> readDigits r = (Decimal.Nil, r).
Proof.
  destruct r as [| c r]; [reflexivity |]. cbn [noDigitAhead readDigits].
  intros H.
  destruct (Z.leb_spec 0 (Z.of_N c - 48)), (Z.leb_spec (Z.of_N c - 48) 9);
    cbn [andb]; try reflexivity. lia.
Qed.

Lemma readDigits_uintDigits_then (u : Decimal.uint) (r : jsstring) :
  noDigitAhead r -> readDigits (uintDigits u ++ r) = (u, r).
Proof.
  intros Hr.
  induction u as [| u IH | u IH | u IH | u IH | u IH | u IH | u IH | u IH
                  | u IH | u IH ];
    [apply readDigits_stop, Hr | ..];
    cbn [uintDigits app readDigits]; rewrite IH; reflexivity.
Qed.

Lemma uintDigits_not_minus (u : Decimal.uint) (r : jsstring) :
  u <> Decimal.Nil ->
  exists c t, uintDigits u ++ r = c :: t /\ (c =? 45)%N = false.
Proof.
  destruct u; [congruence | ..]; intros _; eexists _, _;
    (split; [reflexivity | reflexivity]).
Qed.

(** What [numberToString] writes, [readInt] reads back, up to the first
    character that is not a digit. *)
Lemma readInt_numberToString (n : Z) (r : jsstring) :
  noDigitAhead r -> readInt (numberToString n ++ r) = (n, r).
Proof.
  intros Hr. unfold numberToString.
  destruct n as [| p | p]; cbn [Z.to_int].
  - cbn [N.to_uint]. change (uintDigits (Decimal.D0 Decimal.Nil) ++ r)
      with (48%N :: r).
    cbn [readInt N.eqb Pos.eqb]. cbn [readDigits].
    change (Z.of_N 48 - 48) with 0. cbn [Z.leb Z.compare andb].
    rewrite (readDigits_stop r Hr). reflexivity.
  - destruct (uintDigits_not_minus (Pos.to_uint p) r
                (DecimalPos.Unsigned.to_uint_nonnil p)) as (c & t & E & Hc).
    unfold readInt. rewrite E, Hc, <- E.
    rewrite readDigits_uintDigits_then by exact Hr.
    unfold N.of_uint. rewrite DecimalPos.Unsigned.of_to. reflexivity.
  - change (str "-" ++ uintDigits (Pos.to_uint p)) with (45%N :: uintDigits (Pos.to_uint p)).
    cbn [app readInt N.eqb Pos.eqb].
    rewrite readDigits_uintDigits_then by exact Hr.
    unfold N.of_uint. rewrite DecimalPos.Unsigned.of_to. reflexivity.
Qed.

Lemma numberToString_inj_then (a b : Z) (r r' : jsstring) :
  noDigitAhead r -> noDigitAhead r' ->
  numberToString a ++ r = numberToString b ++ r' -> a = b /\ r = r'.
Proof.
  intros Hr Hr' E.
  pose proof (readInt_numberToString a r Hr) as Ea.
  pose proof (readInt_numberToString b r' Hr') as Eb.
  rewrite E in Ea. rewrite Ea in Eb. injection Eb as -> ->. auto.
Qed.

Lemma unitName_inj_then (p q : ExtendedTimeUnit) (r r' : jsstring) :
  unitName p ++ 45%N :: r = unitName q ++ 45%N :: r' -> p = q /\ r = r'.
Proof.
  destruct p as [[] | |], q as [[] | |]; cbn; intros E;
    first [discriminate E | injection E as ->; auto].
Qed.

(** X8. The cache key determines what it was made from: two keys are
    equal only for the same start instant, the same end instant, the same
    precision and the same zoom level. *)
Theorem getCacheKey_injective (s e s' e' : Dayjs) (p p' : ExtendedTimeUnit)
    (zoom zoom' : Z) :
  getCacheKey s e p zoom = getCacheKey s' e' p' zoom' ->
  Dayjs.valueOf s = Dayjs.valueOf s' /\ Dayjs.valueOf e = Dayjs.valueOf e'
  /\ p = p' /\ zoom = zoom'.
Proof.
  unfold getCacheKey. change (str "-") with [45%N].
  intros E.
  apply numberToString_inj_then in E as [Es E];
    [| cbn; left; reflexivity ..].
  injection E as E.
  rewrite <- ?app_assoc in E.
  apply numberToString_inj_then in E as [Ee E];
    [| cbn; left; reflexivity ..].
  injection E as E.
  apply unitName_inj_then in E as [Ep E].
  rewrite <- (app_nil_r (numberToString zoom)) in E.
  rewrite <- (app_nil_r (numberToString zoom')) in E.
  apply numberToString_inj_then in E as [Ez _]; [| exact I ..].
  auto.
Qed.

End CacheKeys.

(** ** The two rows *)

Section Rows.

Import Dayjs.

Context (U : Unicode) (getHolidayInfo : Z -> option HolidayInfo).

(** The value computed on cleared caches, by the skeletons of the loops. *)
Lemma timeaxisUnits_cleared_inv (fuel : nat) (now : Z) (inst : Instance)
    (r : TimeaxisResult) (inst' : Instance) :
  timeaxisUnits U getHolidayInfo fuel now (clearCaches inst) = Some (r, inst') ->
  exists cursors cells,
    lowerCursors fuel (chartEnd (config inst))
      (getDayjsUnit (internalPrecision inst)) (chartStart (config inst))
    = Some cursors
    /\ upperCells fuel (chartStart (config inst)) (chartEnd (config inst))
         (internalPrecision inst) (getDayjsUnit (upperPrecision inst))
         (unitWidth inst)
         (startOf (locale (config inst)) (getDayjsUnit (upperPrecision inst))
            (chartStart (config inst)))
       = Some cells
    /\ lowerUnits r
       = map (fun d => createTimeaxisUnit U getHolidayInfo (config inst) d
                         (getDisplayFormat (internalPrecision inst))
                         (px (unitWidth inst))) cursors
    /\ upperUnits r
       = map (fun c => createTimeaxisUnit U getHolidayInfo (config inst) c.1
                         (getDisplayFormat (upperPrecision inst)) (px c.2))
           cells.
Proof.
  intros E.
  destruct (lowerCursors fuel (chartEnd (config inst))
              (getDayjsUnit (internalPrecision inst)) (chartStart (config inst)))
    as [cursors |] eqn:Ec.
  2:{ exfalso. revert E. unfold timeaxisUnits, getFromCache.
      change (cacheLower (clearCaches inst)) with (∅ : gmap jsstring CacheEntry).
      rewrite lookup_empty, lowerLoop_cursors.
      change (config (clearCaches inst)) with (config inst).
      change (internalPrecision (clearCaches inst)) with (internalPrecision inst).
      rewrite Ec. discriminate. }
  destruct (upperCells fuel (chartStart (config inst)) (chartEnd (config inst))
              (internalPrecision inst) (getDayjsUnit (upperPrecision inst))
              (unitWidth inst)
              (startOf (locale (config inst)) (getDayjsUnit (upperPrecision inst))
                 (chartStart (config inst))))
    as [cells |] eqn:Eu.
  2:{ exfalso. revert E. unfold timeaxisUnits, getFromCache.
      change (cacheLower (clearCaches inst)) with (∅ : gmap jsstring CacheEntry).
      change (cacheUpper (clearCaches inst)) with (∅ : gmap jsstring CacheEntry).
      rewrite !lookup_empty, lowerLoop_cursors, upperLoop_cells.
      change (config (clearCaches inst)) with (config inst).
      change (internalPrecision (clearCaches inst)) with (internalPrecision inst).
      change (upperPrecision (clearCaches inst)) with (upperPrecision inst).
      change (unitWidth (clearCaches inst)) with (unitWidth inst).
      rewrite Ec, Eu. discriminate. }
  destruct (timeaxisUnits_of_skeletons U getHolidayInfo fuel now inst
              cursors cells Ec Eu) as (inst0 & E0).
  rewrite E in E0. injection E0 as -> _.
  exists cursors, cells. repeat split; reflexivity.
Qed.

(** *** The lower row *)

Lemma seq_from_zero (n : nat) : seq 0 (S n) = 0%nat :: map S (seq 0 n).
Proof. cbn [seq]. rewrite <- seq_shift. reflexivity. Qed.

(** The instants of the cursors of the lower loop, for a unit of fixed
    length: one every unit from the first cursor on, as many as units, whole
    or partial, fit before the end. *)
Lemma lowerCursors_instants (chartEnd : Dayjs) (u : ManipulateType) :
  u = Hour \/ u = Day \/ u = Week ->
  forall (fuel : nat) (cur : Dayjs) (cursors : list Dayjs),
    isValid cur = true ->
    lowerCursors fuel chartEnd u cur = Some cursors ->
    map valueOf cursors
    = map (fun i => valueOf cur + Z.of_nat i * unitLength u)
        (seq 0 (Z.to_nat (ceilDiv (valueOf chartEnd - valueOf cur)
                            (unitLength u)))).
Proof.
  intros Hu. pose proof (unitLength_positive u) as HL.
  induction fuel as [| fuel IH]; intros cur cursors Hv;
    cbn [lowerCursors]; unfold isBefore;
    destruct (Z.ltb_spec (valueOf cur) (valueOf chartEnd)) as [Hlt | Hge];
    try discriminate.
  - intros [= <-].
    pose proof (ceilDiv_nonpositive getHolidayInfo (valueOf chartEnd - valueOf cur)
                  (unitLength u) ltac:(lia) HL).
    replace (Z.to_nat _) with 0%nat by lia. reflexivity.
  - destruct (add1_fixed_length u cur Hu Hv) as [Hv' He'].
    destruct (lowerCursors fuel chartEnd u (add1 u cur)) as [rest |] eqn:Er;
      [| discriminate].
    cbn. intros [= <-]. cbn [map].
    rewrite (IH (add1 u cur) rest Hv' Er), He'.
    pose proof (ceilDiv_positive getHolidayInfo (valueOf chartEnd - valueOf cur)
                  (unitLength u) ltac:(lia) HL) as Hn.
    replace (valueOf chartEnd - (valueOf cur + unitLength u))
      with ((valueOf chartEnd - valueOf cur) - unitLength u) by lia.
    rewrite ceilDiv_step by exact HL.
    set (n := ceilDiv (valueOf chartEnd - valueOf cur) (unitLength u)) in *.
    replace (Z.to_nat n) with (S (Z.to_nat (n - 1))) by lia.
    rewrite seq_from_zero. cbn [map]. rewrite map_map.
    f_equal; [lia |]. apply map_ext. intros i. lia.
  - intros [= <-].
    pose proof (ceilDiv_nonpositive getHolidayInfo (valueOf chartEnd - valueOf cur)
                  (unitLength u) ltac:(lia) HL).
    replace (Z.to_nat _) with 0%nat by lia. reflexivity.
Qed.

(** X9. For every precision but [month] (the precision [date] steps by
    days like [day]) and a chart that starts at a date of the calendar, the
    lower row computed on cleared caches has one cell every unit from the
    chart start on, as many as units, whole or partial, fit before the chart
    end (none if the end does not come after the start); the last cell is not
    clipped; every cell has the width of one unit. *)
Theorem lower_row_is_a_regular_grid (fuel : nat) (now : Z) (inst : Instance)
    (r : TimeaxisResult) (inst' : Instance) :
  internalPrecision inst <> month ->
  isValid (chartStart (config inst)) = true ->
  timeaxisUnits U getHolidayInfo fuel now (clearCaches inst) = Some (r, inst') ->
  let step := unitLength (getDayjsUnit (internalPrecision inst)) in
  let n := Z.to_nat (ceilDiv (valueOf (chartEnd (config inst))
                              - valueOf (chartStart (config inst))) step) in
  length (lowerUnits r) = n
  /\ map date_ (lowerUnits r)
     = map (fun i => valueOf (chartStart (config inst)) + Z.of_nat i * step)
         (seq 0 n)
  /\ Forall (fun u => width u = px (BASE_UNIT_WIDTH * zoomLevel inst))
       (lowerUnits r).
Proof.
  intros Hp Hv E. cbn zeta.
  destruct (timeaxisUnits_cleared_inv fuel now inst r inst' E)
    as (cursors & cells & Ec & _ & -> & _).
  assert (Hu : getDayjsUnit (internalPrecision inst) = Hour
               \/ getDayjsUnit (internalPrecision inst) = Day
               \/ getDayjsUnit (internalPrecision inst) = Week).
  { destruct (internalPrecision inst); cbn; auto. congruence. }
  pose proof (lowerCursors_instants _ _ Hu fuel _ cursors Hv Ec) as Hi.
  assert (Hd : map date_
                 (map (fun d => createTimeaxisUnit U getHolidayInfo (config inst) d
                                  (getDisplayFormat (internalPrecision inst))
                                  (px (unitWidth inst))) cursors)
               = map valueOf cursors).
  { rewrite map_map. reflexivity. }
  split; [| split].
  - rewrite length_map. rewrite <- (length_map valueOf), Hi.
    rewrite length_map, length_seq. reflexivity.
  - rewrite Hd. exact Hi.
  - apply List.Forall_forall. intros u Hin.
    apply in_map_iff in Hin as (d & <- & _). reflexivity.
Qed.

(** *** The upper row *)

Lemma upperCells_widths (s e : Dayjs) (p : TimeUnit) (u : ManipulateType)
    (w : Z) :
  forall (fuel : nat) (c : Dayjs) (cells : list (Dayjs * Z)),
    upperCells fuel s e p u w c = Some cells ->
    Forall (fun cell => 0 < cell.2 /\ exists n, cell.2 = n * w) cells.
Proof.
  induction fuel as [| fuel IH]; intros c cells; cbn [upperCells];
    destruct (isBefore c e); try discriminate;
    try (intros [= <-]; constructor).
  cbn zeta.
  destruct (upperCells fuel s e p u w (add1 u c)) as [rest |] eqn:Er.
  - destruct (Z.ltb_spec 0
                (unitsInPeriod p (if isBefore c s then s else c)
                   (if isAfter (add1 u c) e then e else add1 u c) * w)).
    + cbn. intros [= <-]. constructor; [| exact (IH _ _ Er)].
      cbn. split; [assumption | eexists; reflexivity].
    + intros [= <-]. exact (IH _ _ Er).
  - destruct (0 <? _); discriminate.
Qed.

Lemma upperCells_starts (L : Locale) (s e : Dayjs) (p : TimeUnit)
    (u : ManipulateType) (w : Z) :
  isPeriod u ->
  forall (fuel : nat) (c : Dayjs) (cells : list (Dayjs * Z)),
    isValid c = true -> startOf L u c = c ->
    upperCells fuel s e p u w c = Some cells ->
    Forall (fun cell => isValid cell.1 = true /\ startOf L u cell.1 = cell.1
                        /\ valueOf c <= valueOf cell.1 < valueOf e) cells
    /\ StronglySorted Z.lt (map (fun cell => valueOf cell.1) cells).
Proof.
  intros Hu. induction fuel as [| fuel IH]; intros c cells Hv Hc;
    cbn [upperCells]; unfold isBefore at 1;
    destruct (Z.ltb_spec (valueOf c) (valueOf e)) as [Hlt | Hge];
    try discriminate;
    try (intros [= <-]; split; constructor).
  cbn zeta.
  destruct (add1_period_step L u c Hu Hv Hc) as (Hv' & Hc' & Hstep).
  unfold MILLISECONDS_A_DAY in Hstep.
  destruct (upperCells fuel s e p u w (add1 u c)) as [rest |] eqn:Er.
  2:{ destruct (0 <? _); discriminate. }
  destruct (IH _ _ Hv' Hc' Er) as [Hall Hsorted].
  assert (Hall' : Forall (fun cell => isValid cell.1 = true
                                      /\ startOf L u cell.1 = cell.1
                                      /\ valueOf c <= valueOf cell.1 < valueOf e)
                    rest).
  { eapply Forall_impl; [exact Hall |]. cbn. intros cell (A & B & C).
    repeat split; try assumption; lia. }
  destruct (0 <? _).
  - cbn. intros [= <-]. split.
    + constructor; [cbn; repeat split; (assumption || lia) | exact Hall'].
    + cbn [map]. constructor; [exact Hsorted |].
      apply Forall_map. eapply Forall_impl; [exact Hall |]. cbn.
      intros cell (_ & _ & C). lia.
  - intros [= <-]. split; assumption.
Qed.

(** X10. Whatever the chart and the precision, every cell of the upper row
    computed on cleared caches has a positive width that is a whole number of
    cell widths: a period that would get no width is left out, never emitted
    with a zero or negative width. For a chart that starts at a date of the
    calendar, the cells stand at starts of periods of the upper unit, from
    the period of the chart start on and before the chart end, in strictly
    increasing order. *)
Theorem upper_row_cells (fuel : nat) (now : Z) (inst : Instance)
    (r : TimeaxisResult) (inst' : Instance) :
  timeaxisUnits U getHolidayInfo fuel now (clearCaches inst) = Some (r, inst') ->
  let cfg := config inst in
  let upperUnit := getDayjsUnit (upperPrecision inst) in
  Forall (fun u => exists n,
            0 < n * unitWidth inst
            /\ width u = px (n * unitWidth inst)
            /\ pxValue (width u) = Some (n * unitWidth inst))
    (upperUnits r)
  /\ (isValid (chartStart cfg) = true ->
      Forall (fun u => exists c,
                date_ u = valueOf c /\ isValid c = true
                /\ startOf (locale cfg) upperUnit c = c
                /\ valueOf (startOf (locale cfg) upperUnit (chartStart cfg))
                   <= date_ u < valueOf (chartEnd cfg))
        (upperUnits r)
      /\ StronglySorted Z.lt (map date_ (upperUnits r))).
Proof.
  intros E. cbn zeta.
  destruct (timeaxisUnits_cleared_inv fuel now inst r inst' E)
    as (cursors & cells & _ & Eu & _ & ->).
  split.
  - apply Forall_map.
    eapply Forall_impl; [exact (upperCells_widths _ _ _ _ _ _ _ _ Eu) |].
    cbn. intros cell (Hpos & n & En). exists n. rewrite <- En.
    repeat split; [exact Hpos | apply pxValue_px, Hpos].
  - intros Hv.
    destruct (startOf_valid (locale (config inst))
                (getDayjsUnit (upperPrecision inst)) (chartStart (config inst))
                (upper_unit_is_period inst) Hv) as (Hv0 & Hc0 & _).
    destruct (upperCells_starts (locale (config inst)) _ _ _ _ _
                (upper_unit_is_period inst) _ _ _ Hv0 Hc0 Eu) as [Hall Hsorted].
    split.
    + apply Forall_map. eapply Forall_impl; [exact Hall |]. cbn.
      intros cell (A & B & C). exists cell.1. auto.
    + rewrite map_map. exact Hsorted.
Qed.

(** *** Termination *)

Lemma addMonths_one_progress (d : Dayjs) :
  isValid d = true ->
  isValid (addMonths 1 d) = true
  /\ valueOf d + 28 * MILLISECONDS_A_DAY <= valueOf (addMonths 1 d).
Proof.
  intros H. apply isValid_spec in H. rewrite isValid_spec.
  unfold addMonths, valueOf, dayNumber, MILLISECONDS_A_DAY. cbn.
  pose proof (daysInMonth_bounds (yr d) (mon d)) as Hdim.
  assert (Hc : mon d <= 10 \/ mon d = 11) by lia.
  destruct Hc as [Hc | Hc].
  - replace ((mon d + 1) / 12) with 0 by (Z.div_mod_to_equations; lia).
    replace ((mon d + 1) mod 12) with (mon d + 1) by (Z.div_mod_to_equations; lia).
    rewrite Z.add_0_r. rewrite daysBeforeMonth_succ by lia.
    pose proof (daysInMonth_bounds (yr d) (mon d + 1)).
    lia.
  - rewrite Hc in *.
    change ((11 + 1) / 12) with 1. change ((11 + 1) mod 12) with 0.
    rewrite dayFromYear_succ.
    pose proof (daysBeforeMonth_december (yr d)).
    change (daysBeforeMonth (yr d + 1) 0) with 0.
    change (daysInMonth (yr d + 1) 0) with 31.
    change (daysInMonth (yr d) 11) with 31 in *.
    rewrite Z.min_l by lia. destruct (isLeapYear (yr d)); lia.
Qed.

(** Every step of the lower loop moves the cursor forward by an hour at
    least, and keeps it a date of the calendar. *)
Lemma lower_step_progress (p : TimeUnit) (d : Dayjs) :
  isValid d = true ->
  isValid (add1 (getDayjsUnit p) d) = true
  /\ valueOf d + MILLISECONDS_A_HOUR <= valueOf (add1 (getDayjsUnit p) d).
Proof.
  intros H.
  assert (Hfix : forall u, u = Hour \/ u = Day \/ u = Week ->
            isValid (add1 u d) = true
            /\ valueOf d + MILLISECONDS_A_HOUR <= valueOf (add1 u d)).
  { intros u Hu. destruct (add1_fixed_length u d Hu H) as [Hv He].
    split; [exact Hv |]. rewrite He.
    apply Z.add_le_mono_l.
    destruct Hu as [-> | [-> | ->]]; vm_compute; discriminate. }
  destruct p; cbn [getDayjsUnit]; try (apply Hfix; intuition congruence).
  destruct (addMonths_one_progress d H) as [Hv He].
  split; [exact Hv |]. cbn [add1].
  unfold MILLISECONDS_A_DAY, MILLISECONDS_A_HOUR in *. lia.
Qed.

Lemma lowerCursors_terminates (chartEnd : Dayjs) (p : TimeUnit) :
  forall (fuel : nat) (cur : Dayjs),
    isValid cur = true ->
    valueOf chartEnd - valueOf cur <= Z.of_nat fuel * MILLISECONDS_A_HOUR ->
    exists cursors, lowerCursors fuel chartEnd (getDayjsUnit p) cur = Some cursors.
Proof.
  induction fuel as [| fuel IH]; intros cur Hv Hfuel;
    cbn [lowerCursors]; unfold isBefore;
    destruct (Z.ltb_spec (valueOf cur) (valueOf chartEnd)) as [Hlt | Hge];
    eauto; [lia |].
  destruct (lower_step_progress p cur Hv) as [Hv' Hstep].
  destruct (IH _ Hv') as (cursors & ->); [lia |]. cbn. eauto.
Qed.

Lemma upperCells_terminates (L : Locale) (s e : Dayjs) (p : TimeUnit)
    (u : ManipulateType) (w : Z) :
  isPeriod u ->
  forall (fuel : nat) (c : Dayjs),
    isValid c = true -> startOf L u c = c ->
    valueOf e <= valueOf c
    \/ ((1 <= fuel)%nat
        /\ valueOf e - valueOf (add1 u c)
           <= (Z.of_nat fuel - 1) * MILLISECONDS_A_DAY) ->
    exists cells, upperCells fuel s e p u w c = Some cells.
Proof.
  intros Hu. induction fuel as [| fuel IH]; intros c Hv Hc Hfuel.
  - destruct Hfuel as [Hge | [Hf _]]; [| lia].
    rewrite upperCells_done by exact Hge. eauto.
  - destruct (Z.le_gt_cases (valueOf e) (valueOf c)) as [Hge | Hlt].
    { rewrite upperCells_done by exact Hge. eauto. }
    destruct Hfuel as [Hge | [_ Hbound]]; [lia |].
    cbn [upperCells]. unfold isBefore at 1.
    rewrite (proj2 (Z.ltb_lt _ _) Hlt). cbn zeta.
    destruct (add1_period_step L u c Hu Hv Hc) as (Hv' & Hc' & _).
    destruct (IH (add1 u c) Hv' Hc') as (cells & ->).
    + destruct (Z.le_gt_cases (valueOf e) (valueOf (add1 u c))) as [H1 | H1];
        [left; exact H1 | right].
      destruct (add1_period_step L u (add1 u c) Hu Hv' Hc') as (_ & _ & Hstep).
      unfold MILLISECONDS_A_DAY in *. lia.
    + destruct (0 <? _); cbn; eauto.
Qed.

(** X11. For every chart that starts at a date of the calendar, every
    precision (the clamped month steps included), every zoom level and
    whatever the caches hold, both loops end: with as much fuel as hours
    between the start and the end of the chart, plus two, the computed value
    exists. *)
Theorem timeaxisUnits_terminates (fuel : nat) (now : Z) (inst : Instance) :
  isValid (chartStart (config inst)) = true ->
  (Z.to_nat ((valueOf (chartEnd (config inst))
              - valueOf (chartStart (config inst))) / MILLISECONDS_A_HOUR) + 2
   <= fuel)%nat ->
  exists r inst',
    timeaxisUnits U getHolidayInfo fuel now inst = Some (r, inst').
Proof.
  intros Hv Hfuel.
  set (s := chartStart (config inst)) in *.
  set (e := chartEnd (config inst)) in *.
  assert (Hdelta : valueOf e - valueOf s
                   < (Z.of_nat fuel - 1) * MILLISECONDS_A_HOUR).
  { unfold MILLISECONDS_A_HOUR in *.
    destruct (Z.le_gt_cases 0 (valueOf e - valueOf s)) as [Hpos | Hneg]; [| lia].
    assert (Hq : (valueOf e - valueOf s) / 3600000 + 2 <= Z.of_nat fuel) by lia.
    revert Hq. generalize (valueOf e - valueOf s). intros d Hq.
    Z.div_mod_to_equations. lia. }
  destruct (lowerCursors_terminates e (internalPrecision inst) fuel s Hv)
    as (cursors & Ec).
  { unfold MILLISECONDS_A_HOUR in *. lia. }
  pose proof (upper_unit_is_period inst) as Hup.
  destruct (startOf_valid (locale (config inst)) _ s Hup Hv) as (Hv0 & Hc0 & _).
  pose proof (before_next_period (locale (config inst)) _ s Hup Hv) as Hnext.
  destruct (upperCells_terminates (locale (config inst)) s e
              (internalPrecision inst) _ (unitWidth inst) Hup fuel _ Hv0 Hc0)
    as (cells & Eu).
  { right. split; [lia |].
    unfold MILLISECONDS_A_HOUR, MILLISECONDS_A_DAY in *. lia. }
  eapply timeaxisUnits_total.
  - rewrite lowerLoop_cursors. fold s e. rewrite Ec. reflexivity.
  - rewrite upperLoop_cells. fold s e. rewrite Eu. reflexivity.
Qed.

End Rows.

(** ** Labels without letters *)

Section CapitalisationFurther.

Context (U : Unicode).

(** X13. A string in which no code unit is a letter or the first half of a
    surrogate pair (a numeric label such as [25.12. 08:00]) comes back from
    [capitalizeWords] unchanged, whatever the engine's normalisation and
    upper-casing do: the splitting and joining lose nothing, and neither
    [normalize] nor [toLocaleUpperCase] is applied to any fragment. *)
Theorem capitalizeWords_without_letters (s : jsstring) :
  Forall (fun c => isLetter U c = false
                   /\ ((c < 55296)%N \/ (56319 < c)%N)) s ->
  capitalizeWords U s = s.
Proof.
  intros H. unfold capitalizeWords.
  rewrite <- (splitWords_concat s) at 2. f_equal.
  rewrite <- (map_id (splitWords s)) at 2.
  apply map_ext_in. intros w Hw.
  assert (Hsub : Forall (fun c => isLetter U c = false
                                  /\ ((c < 55296)%N \/ (56319 < c)%N)) w).
  { rewrite List.Forall_forall in *. intros c Hc. apply H.
    rewrite <- (splitWords_concat s). apply in_concat. eauto. }
  unfold startsWithLetter.
  destruct w as [| c w]; [reflexivity |].
  inversion Hsub as [| ? ? [Hl Hs] _]; subst.
  rewrite (firstCodePoint_plain c w Hs), Hl. reflexivity.
Qed.

End CapitalisationFurther.

(** ** Instances of the further properties *)

Section FurtherInstances.

Import Dayjs.

Ltac evaluate_chart U holidays fuel inst E :=
  let cursors := fresh "cursors" in
  let cells := fresh "cells" in
  let Ec := fresh "Ec" in
  let Eu := fresh "Eu" in
  let inst' := fresh "inst'" in
  destruct (lowerCursors fuel (chartEnd (config inst))
              (getDayjsUnit (internalPrecision inst)) (chartStart (config inst)))
    as [cursors |] eqn:Ec; [| vm_compute in Ec; discriminate];
  destruct (upperCells fuel (chartStart (config inst)) (chartEnd (config inst))
              (internalPrecision inst) (getDayjsUnit (upperPrecision inst))
              (unitWidth inst)
              (Dayjs.startOf (locale (config inst))
                 (getDayjsUnit (upperPrecision inst)) (chartStart (config inst))))
    as [cells |] eqn:Eu; [| vm_compute in Eu; discriminate];
  destruct (timeaxisUnits_of_skeletons U holidays fuel 0 inst
              cursors cells Ec Eu) as (inst' & E);
  vm_compute in Ec; injection Ec as <-;
  vm_compute in Eu; injection Eu as <-;
  eexists _, inst'; split; [exact E |].

Lemma cache_store_then_read_witness :
  let m := setInCache ∅ (str "k") [] 0 in
  getFromCache m (str "k") 300000 = (Some [], m)
  /\ setInCache m (str "k") [] 300000 = setInCache ∅ (str "k") [] 300000
  /\ (forall k, k <> str "k" ->
        getFromCache m k 300000
        = ((getFromCache ∅ k 300000).1,
           setInCache (getFromCache ∅ k 300000).2 (str "k") [] 0)).
Proof.
  apply (cache_store_then_read ∅ (str "k") [] [] 0 300000).
  vm_compute. discriminate.
Defined.

Lemma timeaxisUnits_again_witness :
  exists r inst',
    timeaxisUnits Latin1.tables noHolidays 10 0
      (clearCaches (useTimeaxisUnits dateChart)) = Some (r, inst')
    /\ timeaxisUnits Latin1.tables noHolidays 0 0 inst' = Some (r, inst').
Proof.
  evaluate_chart Latin1.tables noHolidays 10%nat (useTimeaxisUnits dateChart) E.
  exact (timeaxisUnits_again Latin1.tables noHolidays 10 0 0 _ _ _ E).
Defined.

Lemma timeaxisUnits_within_and_after_ttl_witness :
  exists r inst',
    timeaxisUnits Latin1.tables noHolidays 10 0
      (clearCaches (useTimeaxisUnits dateChart)) = Some (r, inst')
    /\ (forall now' fuel', now' - 0 <= CACHE_TTL ->
          timeaxisUnits Latin1.tables noHolidays fuel' now' inst'
          = Some (r, inst'))
    /\ (forall now' fuel', now' - 0 > CACHE_TTL ->
          timeaxisUnits Latin1.tables noHolidays fuel' now' inst'
          = timeaxisUnits Latin1.tables noHolidays fuel' now'
              (clearCaches (useTimeaxisUnits dateChart))).
Proof.
  evaluate_chart Latin1.tables noHolidays 10%nat (useTimeaxisUnits dateChart) E.
  exact (timeaxisUnits_within_and_after_ttl Latin1.tables noHolidays 10 0
           _ _ _ E).
Defined.

Lemma zoom_in_and_out_are_inverse_witness :
  let inst := useTimeaxisUnits (endToEndChart false true en) in
  (adjustZoomAndPrecision false inst <> inst ->
   adjustZoomAndPrecision true (adjustZoomAndPrecision false inst) = inst)
  /\ (adjustZoomAndPrecision true inst <> inst ->
      adjustZoomAndPrecision false (adjustZoomAndPrecision true inst) = inst).
Proof.
  apply (zoom_in_and_out_are_inverse
           (useTimeaxisUnits (endToEndChart false true en))).
  - split; vm_compute; discriminate.
  - apply list_elem_of_here.
  - vm_compute. discriminate.
Defined.

Lemma zoom_out_saturates_witness :
  let inst :=
    {| config := dateChart; internalPrecision := date; zoomLevel := 3;
       cacheLower := {[ str "k" := {| timestamp := 0; units := [] |} ]};
       cacheUpper := ∅ |} in
  let final := runTicks inst (repeat (Zoom false) 49) in
  internalPrecision final = month /\ zoomLevel final = MIN_ZOOM
  /\ cacheLower final = ∅ /\ cacheUpper final = ∅.
Proof.
  cbn zeta.
  destruct (zoom_out_saturates
              {| config := dateChart; internalPrecision := date; zoomLevel := 3;
                 cacheLower := {[ str "k" := {| timestamp := 0; units := [] |} ]};
                 cacheUpper := ∅ |} 49)
    as (_ & Hp & Hz & _ & Hc).
  - split; vm_compute; discriminate.
  - apply le_n.
  - split; [exact Hp |]. split; [exact Hz |]. apply Hc.
    intros [H _]. discriminate H.
Defined.

Lemma getCacheKey_injective_witness :
  valueOf (mk 2024 0 32 0 0 0 0) = valueOf (mk 2024 1 1 0 0 0 0)
  /\ valueOf (mk 2024 2 1 0 0 0 0) = valueOf (mk 2024 2 1 0 0 0 0)
  /\ base day = base day /\ 3 = 3.
Proof.
  apply (getCacheKey_injective (mk 2024 0 32 0 0 0 0) (mk 2024 2 1 0 0 0 0)
           (mk 2024 1 1 0 0 0 0) (mk 2024 2 1 0 0 0 0) day day 3 3).
  vm_compute. reflexivity.
Defined.

Lemma lower_row_is_a_regular_grid_witness :
  exists r inst',
    timeaxisUnits Latin1.tables noHolidays 10 0
      (clearCaches (useTimeaxisUnits dateChart)) = Some (r, inst')
    /\ length (lowerUnits r) = 2%nat
    /\ map date_ (lowerUnits r)
       = map (fun i => valueOf (mk 2024 11 25 0 0 0 0)
                       + Z.of_nat i * MILLISECONDS_A_DAY) (seq 0 2)
    /\ Forall (fun u => width u = str "72px") (lowerUnits r).
Proof.
  evaluate_chart Latin1.tables noHolidays 10%nat (useTimeaxisUnits dateChart) E.
  refine (lower_row_is_a_regular_grid Latin1.tables noHolidays 10 0
            (useTimeaxisUnits dateChart) _ _ _ _ E).
  - vm_compute. discriminate.
  - reflexivity.
Defined.

Lemma upper_row_cells_witness :
  exists r inst',
    timeaxisUnits Latin1.tables noHolidays 64 0
      (clearCaches (useTimeaxisUnits (endToEndChart false true en)))
    = Some (r, inst')
    /\ Forall (fun u => exists n,
                 0 < n * 72 /\ width u = px (n * 72)
                 /\ pxValue (width u) = Some (n * 72))
         (upperUnits r)
    /\ StronglySorted Z.lt (map date_ (upperUnits r)).
Proof.
  evaluate_chart Latin1.tables noHolidays 64%nat
    (useTimeaxisUnits (endToEndChart false true en)) E.
  destruct (upper_row_cells Latin1.tables noHolidays 64 0
              (useTimeaxisUnits (endToEndChart false true en)) _ _ E)
    as [Hw Hs].
  split; [exact Hw |]. exact (proj2 (Hs eq_refl)).
Defined.

Lemma timeaxisUnits_terminates_witness :
  exists r inst',
    timeaxisUnits Latin1.tables noHolidays 1418 0
      (useTimeaxisUnits monthEndChart) = Some (r, inst').
Proof.
  apply (timeaxisUnits_terminates Latin1.tables noHolidays 1418 0
           (useTimeaxisUnits monthEndChart)).
  - reflexivity.
  - vm_compute. apply le_n.
Defined.

Lemma capitalizeWords_without_letters_witness :
  capitalizeWords Latin1.tables (str "25.12. 08:00") = str "25.12. 08:00".
Proof.
  apply (capitalizeWords_without_letters Latin1.tables (str "25.12. 08:00")).
  repeat (constructor; [split; [reflexivity | left; reflexivity] |]).
  constructor.
Defined.

End FurtherInstances.
